(** * The DID application engine (abci/did): a shallow embedding

    The engine of [abci/did/did.go] and the AS handler [signData] of
    [abci/did/as.go], with the Go library functions they call
    ([strings.Split], [strings.Replace], [base64.StdEncoding.DecodeString],
    [hex.EncodeToString], [sha256]) written out so that every handler can be
    run on concrete transactions.

    Go strings and byte slices are both sequences of bytes; they are modelled
    by [string] (a list of 8-bit [ascii] characters), so the conversions
    [string(b)] and [[]byte(s)] are the identity.  The merkle tree is modelled
    by its current contents, a finite map from keys to values; a key the tree
    does not hold is the [nil] value of [Get].

    The logger is left out: it changes neither the application nor a
    response.  [InitChain] and [Query] call functions that are not among the
    sources ([updateValidator], [QueryRouter], [ReturnQuery]) and are not
    modelled. *)

From Stdlib Require Import ZArith Ascii String List.
From stdpp Require Import gmap strings list fin_maps pretty.

Local Open Scope Z_scope.

(** ** Go's fixed-width integers *)

Module Int64.

Definition max : Z := 2 ^ 63 - 1.
Definition min : Z := - 2 ^ 63.

(** Two's complement wrap-around of a 64-bit signed integer. *)
Definition wrap (z : Z) : Z := (z + 2 ^ 63) mod 2 ^ 64 - 2 ^ 63.

(** [x++] and [x--] on an [int64]. *)
Definition incr (z : Z) : Z := wrap (z + 1).
Definition decr (z : Z) : Z := wrap (z - 1).

Definition in_range (z : Z) : Prop := min <= z <= max.

End Int64.

(** ** package strings *)

Module Strings.

(** [strings.Split(s, sep)] for a one-byte separator: the pieces of [s]
    between the occurrences of [sep]; there is always at least one piece
    ([Split("", "|")] is [[""]]). *)
Fixpoint Split (s : string) (sep : ascii) : list string :=
  match s with
  | EmptyString => [EmptyString]
  | String c s' =>
      if Ascii.eqb c sep then EmptyString :: Split s' sep
      else match Split s' sep with
           | piece :: pieces => String c piece :: pieces
           | [] => [String c EmptyString]
           end
  end.

(** [strings.Replace(s, old, new, -1)] for one-byte [old] and [new]. *)
Fixpoint Replace (s : string) (old new : ascii) : string :=
  match s with
  | EmptyString => EmptyString
  | String c s' =>
      String (if Ascii.eqb c old then new else c) (Replace s' old new)
  end.

(** Occurrence of a byte in a string. *)
Fixpoint contains (s : string) (c : ascii) : bool :=
  match s with
  | EmptyString => false
  | String d s' => Ascii.eqb d c || contains s' c
  end.

End Strings.

(** ** package encoding/hex *)

Module Hex.

Definition hextable : string := "0123456789abcdef".

Definition digit (n : Z) : ascii :=
  match String.get (Z.to_nat n) hextable with
  | Some c => c
  | None => "0"%char
  end.

(** [hex.EncodeToString]: two lower-case digits per byte, high nibble
    first. *)
Fixpoint EncodeToString (src : list Z) : string :=
  match src with
  | [] => EmptyString
  | b :: src' =>
      String (digit (Z.shiftr b 4))
        (String (digit (Z.land b 15)) (EncodeToString src'))
  end.

End Hex.

(** ** package crypto/sha256 (FIPS 180-4), on 32-bit words held in [Z] *)

Module Sha256.

Definition mask32 (x : Z) : Z := Z.land x (2 ^ 32 - 1).
Definition add32 (x y : Z) : Z := mask32 (x + y).
Definition rotr (n x : Z) : Z :=
  Z.lor (Z.shiftr x n) (mask32 (Z.shiftl x (32 - n))).
Definition not32 (x : Z) : Z := Z.lxor x (2 ^ 32 - 1).

Definition Ch (x y z : Z) : Z := Z.lxor (Z.land x y) (Z.land (not32 x) z).
Definition Maj (x y z : Z) : Z :=
  Z.lxor (Z.lxor (Z.land x y) (Z.land x z)) (Z.land y z).
Definition bsig0 (x : Z) : Z := Z.lxor (Z.lxor (rotr 2 x) (rotr 13 x)) (rotr 22 x).
Definition bsig1 (x : Z) : Z := Z.lxor (Z.lxor (rotr 6 x) (rotr 11 x)) (rotr 25 x).
Definition ssig0 (x : Z) : Z := Z.lxor (Z.lxor (rotr 7 x) (rotr 18 x)) (Z.shiftr x 3).
Definition ssig1 (x : Z) : Z := Z.lxor (Z.lxor (rotr 17 x) (rotr 19 x)) (Z.shiftr x 10).

(** The sixty-four round constants. *)
Definition roundK : list Z :=
  [ 1116352408; 1899447441; 3049323471; 3921009573; 961987163; 1508970993;
    2453635748; 2870763221; 3624381080; 310598401; 607225278; 1426881987;
    1925078388; 2162078206; 2614888103; 3248222580; 3835390401; 4022224774;
    264347078; 604807628; 770255983; 1249150122; 1555081692; 1996064986;
    2554220882; 2821834349; 2952996808; 3210313671; 3336571891; 3584528711;
    113926993; 338241895; 666307205; 773529912; 1294757372; 1396182291;
    1695183700; 1986661051; 2177026350; 2456956037; 2730485921; 2820302411;
    3259730800; 3345764771; 3516065817; 3600352804; 4094571909; 275423344;
    430227734; 506948616; 659060556; 883997877; 958139571; 1322822218;
    1537002063; 1747873779; 1955562222; 2024104815; 2227730452; 2361852424;
    2428436474; 2756734187; 3204031479; 3329325298 ].

(** The initial hash value. *)
Definition init : list Z :=
  [ 1779033703; 3144134277; 1013904242; 2773480762;
    1359893119; 2600822924; 528734635; 1541459225 ].

(** Padding: a one bit, zeros up to 56 modulo 64, and the bit length as a
    64-bit big-endian integer. *)
Definition be_bytes (n : nat) (x : Z) : list Z :=
  map (fun i => Z.land (Z.shiftr x (8 * Z.of_nat i)) 255) (rev (seq 0 n)).

Definition pad (msg : list Z) : list Z :=
  let len := Z.of_nat (length msg) in
  let zeros := Z.to_nat ((55 - len) mod 64) in
  msg ++ 128 :: repeat 0 zeros ++ be_bytes 8 (8 * len).

Fixpoint words_of (bs : list Z) : list Z :=
  match bs with
  | a :: b :: c :: d :: bs' =>
      (Z.shiftl a 24 + Z.shiftl b 16 + Z.shiftl c 8 + d) :: words_of bs'
  | _ => []
  end.

(** The message schedule: [w] holds the words computed so far, most recent
    first. *)
Fixpoint schedule (n : nat) (w : list Z) : list Z :=
  match n with
  | O => w
  | S n' =>
      let nth_back i := nth i w 0 in
      let next :=
        add32 (add32 (ssig1 (nth_back 1%nat)) (nth_back 6%nat))
              (add32 (ssig0 (nth_back 14%nat)) (nth_back 15%nat)) in
      schedule n' (next :: w)
  end.

Record regs := Regs { ra : Z; rb : Z; rc : Z; rd : Z; re : Z; rf : Z; rg : Z; rh : Z }.

Definition round (r : regs) (kw : Z * Z) : regs :=
  let t1 := add32 (add32 (add32 (rh r) (bsig1 (re r))) (Ch (re r) (rf r) (rg r)))
                  (add32 (fst kw) (snd kw)) in
  let t2 := add32 (bsig0 (ra r)) (Maj (ra r) (rb r) (rc r)) in
  Regs (add32 t1 t2) (ra r) (rb r) (rc r) (add32 (rd r) t1) (re r) (rf r) (rg r).

Definition regs_of (h : list Z) : regs :=
  let g i := nth i h 0 in
  Regs (g 0%nat) (g 1%nat) (g 2%nat) (g 3%nat) (g 4%nat) (g 5%nat) (g 6%nat) (g 7%nat).

Definition list_of (r : regs) : list Z :=
  [ra r; rb r; rc r; rd r; re r; rf r; rg r; rh r].

(** One 64-byte block folded into the chaining value. *)
Definition block (h : list Z) (blk : list Z) : list Z :=
  let w := rev (schedule 48 (rev (words_of blk))) in
  let r := fold_left round (combine roundK w) (regs_of h) in
  zip_with add32 h (list_of r).

Fixpoint blocks (n : nat) (h : list Z) (bs : list Z) : list Z :=
  match n with
  | O => h
  | S n' => blocks n' (block h (take 64 bs)) (drop 64 bs)
  end.

Definition bytes_of_string (s : string) : list Z :=
  map (fun c => Z.of_N (N_of_ascii c)) (list_ascii_of_string s).

(** [h := sha256.New(); h.Write(msg); h.Sum(nil)]: the 32 digest bytes. *)
Definition Sum (msg : string) : list Z :=
  let padded := pad (bytes_of_string msg) in
  flat_map (be_bytes 4) (blocks (length padded / 64) init padded).

End Sha256.

(** ** package encoding/base64: [StdEncoding.DecodeString] *)

Module Base64.

(** [CorruptInputError]: the offset of the offending input byte. *)
Inductive error := CorruptInputError (offset : nat).

(** [CorruptInputError.Error()]. *)
Definition Error (e : error) : string :=
  match e with
  | CorruptInputError n => "illegal base64 data at input byte " +:+ pretty n
  end.

Definition encodeStd : string :=
  "ABCDEFGHIJKLMNOPQRSTUVWXYZabcdefghijklmnopqrstuvwxyz0123456789+/".

Definition padChar : ascii := "="%char.

Fixpoint index_of (c : ascii) (alphabet : string) (i : Z) : option Z :=
  match alphabet with
  | EmptyString => None
  | String d rest => if Ascii.eqb c d then Some i else index_of c rest (i + 1)
  end.

(** [enc.decodeMap[c]], with [None] for the 0xff entries. *)
Definition decodeMap (c : ascii) : option Z := index_of c encodeStd 0.

Definition is_newline (c : ascii) : bool :=
  Ascii.eqb c "010"%char || Ascii.eqb c "013"%char.

(** The loop [for si < len(src) && (src[si] == '\n' || src[si] == '\r')]. *)
Fixpoint skip_newlines (src : string) (si : nat) : string * nat :=
  match src with
  | String c rest => if is_newline c then skip_newlines rest (S si) else (src, si)
  | EmptyString => (src, si)
  end.

(** The end of [decodeQuantum]: [dlen] six-bit values give [dlen - 1]
    bytes. *)
Definition assemble (dbuf : list Z) (dlen : nat) : string :=
  let g i := nth i dbuf 0 in
  let val := Z.lor (Z.lor (Z.shiftl (g 0%nat) 18) (Z.shiftl (g 1%nat) 12))
                   (Z.lor (Z.shiftl (g 2%nat) 6) (g 3%nat)) in
  let byte_at k := ascii_of_N (Z.to_N (Z.land (Z.shiftr val k) 255)) in
  string_of_list_ascii (take (dlen - 1) [byte_at 16; byte_at 8; byte_at 0]).

(** What [decodeQuantum] does once it has read a padding character at
    offset [si] with [dbuf] holding the values of the quantum read so far;
    [rest] is the input after that character. *)
Definition padding (dbuf : list Z) (rest : string) (si : nat) : string + error :=
  let finish (tail : string * nat) :=
    match skip_newlines (fst tail) (snd tail) with
    | (EmptyString, _) => inl (assemble dbuf (length dbuf))
    | (String _ _, sj) => inr (CorruptInputError sj)
    end in
  match length dbuf with
  | 0%nat | 1%nat => inr (CorruptInputError si)
  | 2%nat =>
      match skip_newlines rest (S si) with
      | (EmptyString, sj) => inr (CorruptInputError sj)
      | (String c rest', sj) =>
          if Ascii.eqb c padChar then finish (rest', S sj)
          else inr (CorruptInputError (sj - 1))
      end
  | _ => finish (rest, S si)
  end.

(** [Decode]: the input is consumed quantum by quantum; [si] is the offset
    of the next input byte and [dbuf] the values of the current quantum. *)
Fixpoint decode (src : string) (si : nat) (dbuf : list Z) : string + error :=
  match src with
  | EmptyString =>
      match dbuf with
      | [] => inl EmptyString
      | _ => inr (CorruptInputError (si - length dbuf))
      end
  | String c rest =>
      match decodeMap c with
      | Some v =>
          let dbuf' := dbuf ++ [v] in
          if (length dbuf' =? 4)%nat then
            match decode rest (S si) [] with
            | inl out => inl (assemble dbuf' 4 +:+ out)
            | inr e => inr e
            end
          else decode rest (S si) dbuf'
      | None =>
          if is_newline c then decode rest (S si) dbuf
          else if Ascii.eqb c padChar then padding dbuf rest si
          else inr (CorruptInputError si)
      end
  end.

Definition DecodeString (s : string) : string + error := decode s 0 [].

End Base64.

(** ** The data model *)

(** Modelled from the spec: the result codes of package [code] (section 6,
    "Result-code taxonomy"), whose declarations are not among the sources.
    Only the codes the engine and [signData] name are listed; they are
    pairwise distinct constants. *)
Module code.
Inductive t :=
| OK
| DecodingError
| WrongTransactionFormat
| MethodCanNotBeEmpty
| UnmarshalError
| MarshalError
| RequestIDNotFound
| RequestIsClosed
| RequestIsTimedOut
| NodeIDIsNotExistInASList
| Handler (n : Z).

#[global] Instance eq_dec : EqDecision t.
Proof. solve_decision. Defined.
End code.

(** Modelled from the spec: [types.ResponseDeliverTx] as [ReturnDeliverTxLog]
    fills it (section 3, "Response": a result code, a log message and an
    opaque payload); [ReturnDeliverTxLog] is not among the sources. *)
Record ResponseDeliverTx := ReturnDeliverTxLog {
  Code : code.t;
  Log : string;
  ExtraData : string;
}.

(** Modelled from the spec: [types.ResponseCheckTx] as [ReturnCheckTx] fills
    it (section 6: [CheckTx(txBytes) -> {accepted: bool}]). *)
Record ResponseCheckTx := ReturnCheckTx { accepted : bool }.

Record ResponseCommit := { Data : string }.

Record ResponseInfo := {
  Info_Version : string;
  LastBlockHeight : Z;
  LastBlockAppHash : string;
}.

(** [types.Validator], as far as the engine is concerned an opaque entry of
    the pending validator updates. *)
Record Validator := { PubKey : string; Power : Z }.

Record ResponseEndBlock := { ValidatorUpdates : list Validator }.

(** [State]: [db] is the content of the tree the handle points to. *)
Record State := {
  db : gmap string string;
  Size : Z;
  Height : Z;
  AppHash : string;
  UncommitKeys : list string;
  CommitStr : string;
}.

(** [DIDApplication], without its logger. *)
Record DIDApplication := {
  state : State;
  ValUpdates : list Validator;
  Version : string;
}.

(** The JSON view of [State]: its exported fields under their tags. *)
Module StateJSON.
Record t := {
  size : Z;
  height : Z;
  app_hash : string;
  uncommit_keys : list string;
  commit_str : string;
}.

Definition of_State (st : State) : t :=
  {| size := Size st; height := Height st; app_hash := AppHash st;
     uncommit_keys := UncommitKeys st; commit_str := CommitStr st |}.

(** Decoding into a zero [State] whose tree handle is then set to [tree]. *)
Definition to_State (tree : gmap string string) (j : t) : State :=
  {| db := tree; Size := size j; Height := height j; AppHash := app_hash j;
     UncommitKeys := uncommit_keys j; CommitStr := commit_str j |}.
End StateJSON.

(** [encoding/json] on [State]: [Unmarshal] fails with [None]. *)
Class StateCodec := {
  json_Marshal : StateJSON.t -> string;
  json_Unmarshal : string -> option StateJSON.t;
}.

(** ** Calls that mutate the application and may panic *)

Inductive outcome (A : Type) :=
| Done (a : A)
| Panicked.
Arguments Done {A} a.
Arguments Panicked {A}.

(** A method with receiver [app *DIDApplication]: the application after the
    call, also when the call panicked. *)
Definition M (A : Type) : Type := DIDApplication -> DIDApplication * outcome A.

#[global] Instance M_ret : MRet M := fun A a app => (app, Done a).
#[global] Instance M_bind : MBind M := fun A B f m app =>
  match m app with
  | (app', Done a) => f a app'
  | (app', Panicked) => (app', Panicked)
  end.

Definition panic {A} : M A := fun app => (app, Panicked).
Definition gets {A} (f : DIDApplication -> A) : M A := fun app => (app, Done (f app)).
Definition modify (f : DIDApplication -> DIDApplication) : M unit :=
  fun app => (f app, Done tt).

(** [parts[i]], which panics out of range. *)
Definition index (parts : list string) (i : nat) : M string :=
  match parts !! i with
  | Some p => mret p
  | None => panic
  end.

(** [defer func() { if r := recover(); r != nil { res = fallback } }()]. *)
Definition recover {A} (m : M A) (fallback : A) (app : DIDApplication)
  : DIDApplication * A :=
  match m app with
  | (app', Done a) => (app', a)
  | (app', Panicked) => (app', fallback)
  end.

(** The collaborators of the engine that are not among the sources: the
    privileged validator transaction and the method router. *)
Class Collaborators := {
  isValidatorTx : string -> bool;
  execValidatorTx : string -> M ResponseDeliverTx;
  DeliverTxRouter : string -> string -> string -> string -> string -> M ResponseDeliverTx;
}.

(** ** abci/did/did.go *)

Definition stateKey : string := "stateKey".
Definition kvPairPrefixKey : string := "kvPairKey:".

Definition prefixKey (key : string) : string := kvPairPrefixKey +:+ key.

Section Engine.

Context {json : StateCodec}.

(** [None] is the panic on a state record that does not parse. *)
Definition loadState (tree : gmap string string) : option State :=
  let zero := {| StateJSON.size := 0; StateJSON.height := 0;
                 StateJSON.app_hash := ""; StateJSON.uncommit_keys := [];
                 StateJSON.commit_str := "" |} in
  let stateBytes := default "" (tree !! stateKey) in
  if decide (String.length stateBytes ≠ 0%nat) then
    j ← json_Unmarshal stateBytes; Some (StateJSON.to_State tree j)
  else Some (StateJSON.to_State tree zero).

(** [saveState] writes through the handle: the tree after the call. *)
Definition saveState (st : State) : gmap string string :=
  let stateBytes := json_Marshal (StateJSON.of_State st) in
  <[stateKey := stateBytes]> (db st).

(** [tree] is what [iavl.NewVersionedTree] hands back. *)
Definition NewDIDApplication (tree : gmap string string) : option DIDApplication :=
  st ← loadState tree;
  Some {| state := st; ValUpdates := []; Version := "0.0.1" |}.

Definition SetStateDB (key value : string) : M unit :=
  modify (fun app =>
    let st := state app in
    let keys :=
      if decide (key ≠ "stateKey") then UncommitKeys st ++ [key]
      else UncommitKeys st in
    {| state := {| db := <[prefixKey key := value]> (db st);
                   Size := Int64.incr (Size st);
                   Height := Height st;
                   AppHash := AppHash st;
                   UncommitKeys := keys;
                   CommitStr := CommitStr st |};
       ValUpdates := ValUpdates app;
       Version := Version app |}).

Definition DeleteStateDB (key : string) : M unit :=
  modify (fun app =>
    let st := state app in
    {| state := {| db := delete (prefixKey key) (db st);
                   Size := Int64.decr (Size st);
                   Height := Height st;
                   AppHash := AppHash st;
                   UncommitKeys := UncommitKeys st;
                   CommitStr := CommitStr st |};
       ValUpdates := ValUpdates app;
       Version := Version app |}).

Definition Info (app : DIDApplication) : ResponseInfo :=
  {| Info_Version := Version app;
     LastBlockHeight := Height (state app);
     LastBlockAppHash := AppHash (state app) |}.

Definition BeginBlock (app : DIDApplication) : DIDApplication :=
  {| state := state app; ValUpdates := []; Version := Version app |}.

Definition EndBlock (app : DIDApplication) : DIDApplication * ResponseEndBlock :=
  (app, {| ValidatorUpdates := ValUpdates app |}).

(** The body of the loop of [Commit]: one key of [UncommitKeys]. *)
Definition commit_key (tree : gmap string string) (newAppHashString key : string)
  : string :=
  match tree !! prefixKey key with
  | Some value => newAppHashString +:+ (key +:+ value)
  | None => newAppHashString
  end.

Definition Commit (app : DIDApplication) : DIDApplication * ResponseCommit :=
  let st := state app in
  let newAppHashString := fold_left (commit_key (db st)) (UncommitKeys st) "" in
  let commitStr :=
    if decide (newAppHashString ≠ "") then
      let newAppHashStr := CommitStr st +:+ newAppHashString in
      let newAppHash := Sha256.Sum newAppHashStr in
      Hex.EncodeToString newAppHash
    else CommitStr st in
  let appHash := commitStr in
  let height := Int64.incr (Height st) in
  let saved := saveState {| db := db st; Size := Size st; Height := height;
                            AppHash := appHash; UncommitKeys := UncommitKeys st;
                            CommitStr := commitStr |} in
  ({| state := {| db := saved; Size := Size st; Height := height;
                  AppHash := appHash; UncommitKeys := [];
                  CommitStr := commitStr |};
      ValUpdates := ValUpdates app;
      Version := Version app |},
   {| Data := appHash |}).

Context {ext : Collaborators}.

Definition DeliverTx (tx : string) (app : DIDApplication)
  : DIDApplication * ResponseDeliverTx :=
  recover
    (if isValidatorTx tx then execValidatorTx tx
     else
       match Base64.DecodeString tx with
       | inr err => mret (ReturnDeliverTxLog code.DecodingError (Base64.Error err) "")
       | inl txString =>
           let parts := Strings.Split txString "|" in
           method ← index parts 0;
           param ← index parts 1;
           nonce ← index parts 2;
           signature ← index parts 3;
           nodeID ← index parts 4;
           if decide (method ≠ "") then
             DeliverTxRouter method param nonce signature nodeID
           else
             mret (ReturnDeliverTxLog code.MethodCanNotBeEmpty
                     "method can not be empty" "")
       end)
    (ReturnDeliverTxLog code.WrongTransactionFormat "wrong transaction format" "")
    app.

Definition CheckTx (tx : string) (app : DIDApplication)
  : DIDApplication * ResponseCheckTx :=
  recover
    (if isValidatorTx tx then mret (ReturnCheckTx true)
     else
       match Base64.DecodeString (Strings.Replace tx " " "+") with
       | inr err => mret (ReturnCheckTx false)
       | inl txString =>
           let parts := Strings.Split txString "|" in
           method ← index parts 0;
           param ← index parts 1;
           nonce ← index parts 2;
           signature ← index parts 3;
           nodeID ← index parts 4;
           if decide (method ≠ "" ∧ param ≠ "" ∧ nonce ≠ "" ∧ signature ≠ ""
                      ∧ nodeID ≠ "") then
             mret (ReturnCheckTx true)
           else
             mret (ReturnCheckTx false)
       end)
    (ReturnCheckTx false)
    app.

End Engine.

(** *** Query *)

Record RequestQuery := { Query_Data : string; Query_Height : Z }.

(** The read-only router and the constructor of the query response are not
    among the sources; [ResponseQuery] is the type of what they return. *)
Class QueryDeps (ResponseQuery : Type) := {
  QueryRouter : string -> string -> Z -> M ResponseQuery;
  ReturnQuery : option string -> string -> Z -> DIDApplication -> ResponseQuery;
}.

(** [recover] with a response computed from the application as the panic
    left it. *)
Definition recover_with {A} (m : M A) (fallback : DIDApplication -> A)
    (app : DIDApplication) : DIDApplication * A :=
  match m app with
  | (app', Done a) => (app', a)
  | (app', Panicked) => (app', fallback app')
  end.

Section Query.

Context {ResponseQuery : Type} {query : QueryDeps ResponseQuery}.

Definition Query (reqQuery : RequestQuery) (app : DIDApplication)
  : DIDApplication * ResponseQuery :=
  recover_with
    (match Base64.DecodeString (Query_Data reqQuery) with
     | inr err =>
         app' ← gets id;
         mret (ReturnQuery None (Base64.Error err) (Height (state app')) app')
     | inl txString =>
         let parts := Strings.Split txString "|" in
         method ← index parts 0;
         param ← index parts 1;
         if decide (method ≠ "") then
           QueryRouter method param (Query_Height reqQuery)
         else
           app' ← gets id;
           mret (ReturnQuery None "method can't empty" (Height (state app')) app')
     end)
    (fun app' => ReturnQuery None "wrong query format" (Height (state app')) app')
    app.

End Query.

(** ** abci/did/as.go *)

(** The parameter and request types are declared in a file that is not among
    the sources; the records hold the fields [signData] reads and writes. *)
Record SignDataParam := {
  SignData_ServiceID : string;
  SignData_RequestID : string;
  SignData_Signature : string;
}.

Record DataRequest := {
  ServiceID : string;
  As : list string;
  AnsweredAsIdList : list string;
}.

Record Request := {
  RequestID : string;
  DataRequestList : list DataRequest;
  IsClosed : bool;
  IsTimedOut : bool;
}.

(** [encoding/json] on these types: the value, or the text of the error. *)
Class ASCodec := {
  Unmarshal_SignDataParam : string -> SignDataParam + string;
  Unmarshal_Request : string -> Request + string;
  Marshal_SignDataParam : SignDataParam -> string + string;
  Marshal_Request : Request -> string + string;
}.

Section AS.

Context {json_as : ASCodec}.

(** The loop that looks for [nodeID] in the AS list of the data requests of
    the signed service; [exist] is the flag so far.  An empty AS list
    leaves the outer loop, a hit in a non-empty one only the inner loop. *)
Fixpoint nodeID_exists (serviceID nodeID : string) (l : list DataRequest)
    (exist : bool) : bool :=
  match l with
  | [] => exist
  | dataRequest :: l' =>
      if decide (ServiceID dataRequest = serviceID) then
        if decide (length (As dataRequest) = 0%nat) then true
        else nodeID_exists serviceID nodeID l'
               (exist || bool_decide (nodeID ∈ As dataRequest))
      else nodeID_exists serviceID nodeID l' exist
  end.

(** The loop that appends [nodeID] to the answered list of every data
    request of the signed service. *)
Definition answer (serviceID nodeID : string) (request : Request) : Request :=
  {| RequestID := RequestID request;
     DataRequestList :=
       map (fun dataRequest =>
              if decide (ServiceID dataRequest = serviceID) then
                {| ServiceID := ServiceID dataRequest;
                   As := As dataRequest;
                   AnsweredAsIdList := AnsweredAsIdList dataRequest ++ [nodeID] |}
              else dataRequest)
           (DataRequestList request);
     IsClosed := IsClosed request;
     IsTimedOut := IsTimedOut request |}.

Definition signData (param : string) (nodeID : string) : M ResponseDeliverTx :=
  match Unmarshal_SignDataParam param with
  | inr err => mret (ReturnDeliverTxLog code.UnmarshalError err "")
  | inl signData =>
      let requestKey := "Request" +:+ "|" +:+ SignData_RequestID signData in
      requestJSON ← gets (fun app => db (state app) !! prefixKey requestKey);
      match requestJSON with
      | None => mret (ReturnDeliverTxLog code.RequestIDNotFound "Request ID not found" "")
      | Some requestJSON =>
          match Unmarshal_Request requestJSON with
          | inr err => mret (ReturnDeliverTxLog code.UnmarshalError err "")
          | inl request =>
              if IsClosed request then
                mret (ReturnDeliverTxLog code.RequestIsClosed "Request is closed" "")
              else if IsTimedOut request then
                mret (ReturnDeliverTxLog code.RequestIsTimedOut "Request is timed out" "")
              else if negb (nodeID_exists (SignData_ServiceID signData) nodeID
                              (DataRequestList request) false) then
                mret (ReturnDeliverTxLog code.NodeIDIsNotExistInASList
                        "Node ID is not exist in AS list" "")
              else
                let signDataKey := "SignData" +:+ "|" +:+ SignData_Signature signData in
                match Marshal_SignDataParam signData with
                | inr err => mret (ReturnDeliverTxLog code.MarshalError err "")
                | inl signDataJSON =>
                    let request' := answer (SignData_ServiceID signData) nodeID request in
                    match Marshal_Request request' with
                    | inr err => mret (ReturnDeliverTxLog code.MarshalError err "")
                    | inl requestJSON' =>
                        _ ← SetStateDB requestKey requestJSON';
                        _ ← SetStateDB signDataKey signDataJSON;
                        mret (ReturnDeliverTxLog code.OK "success"
                                (SignData_RequestID signData))
                    end
                end
          end
      end
  end.

End AS.

(** *** registerServiceDestination *)

(** Modelled from the spec: the result code [code.ServiceIDNotFound] of
    package [code] (section 6, "NotFoundError-class codes"), one of the
    codes beyond those of the engine and [signData]. *)
Definition ServiceIDNotFound : code.t := code.Handler 2.

(** The types of the parameter, of a registered node and of the list of
    nodes are declared in a file that is not among the sources; the records
    hold the fields [registerServiceDestination] reads and, for [ASNode],
    the five fields of its positional literal in their order.  [number] is
    the type of the assurance levels, which the handler only copies. *)
Record RegisterServiceDestinationParam (number : Type) := {
  RSD_NodeID : string;
  RSD_ServiceID : string;
  RSD_MinIal : number;
  RSD_MinAal : number;
}.
Arguments RSD_NodeID {number} _.
Arguments RSD_ServiceID {number} _.
Arguments RSD_MinIal {number} _.
Arguments RSD_MinAal {number} _.

Record ASNode (number : Type) := {
  ASNode_1 : string;
  ASNode_2 : string;
  ASNode_3 : number;
  ASNode_4 : number;
  ASNode_5 : string;
}.
Arguments Build_ASNode {number} _ _ _ _ _.

Record GetAsNodesByServiceIdResult (number : Type) := {
  Node : list (ASNode number);
}.
Arguments Build_GetAsNodesByServiceIdResult {number} _.
Arguments Node {number} _.

(** [encoding/json] on these types and on [Service] (of which the handler
    only checks that it parses), and the helper [getNodeNameByNodeID], a
    function of this package that is not among the sources. *)
Class ServiceDestinationDeps (number Service : Type) := {
  Unmarshal_RegisterServiceDestinationParam :
    string -> RegisterServiceDestinationParam number + string;
  Unmarshal_Service : string -> Service + string;
  Unmarshal_GetAsNodesByServiceIdResult :
    string -> GetAsNodesByServiceIdResult number + string;
  Marshal_GetAsNodesByServiceIdResult :
    GetAsNodesByServiceIdResult number -> string + string;
  getNodeNameByNodeID : string -> M string;
}.

Section ServiceDestination.

Context {number Service : Type} {deps : ServiceDestinationDeps number Service}.

Definition registerServiceDestination (param : string) (nodeID : string)
  : M ResponseDeliverTx :=
  match Unmarshal_RegisterServiceDestinationParam param with
  | inr err => mret (ReturnDeliverTxLog code.UnmarshalError err "")
  | inl funcParam =>
      let serviceKey := "Service" +:+ "|" +:+ RSD_ServiceID funcParam in
      serviceJSON ← gets (fun app => db (state app) !! prefixKey serviceKey);
      match serviceJSON with
      | None => mret (ReturnDeliverTxLog ServiceIDNotFound "Service ID not found" "")
      | Some serviceJSON =>
          match Unmarshal_Service serviceJSON with
          | inr err => mret (ReturnDeliverTxLog code.UnmarshalError err "")
          | inl service =>
              let serviceDestinationKey :=
                "ServiceDestination" +:+ "|" +:+ RSD_ServiceID funcParam in
              chkExists ← gets (fun app =>
                                  db (state app) !! prefixKey serviceDestinationKey);
              match chkExists with
              | Some chkExists =>
                  match Unmarshal_GetAsNodesByServiceIdResult chkExists with
                  | inr err => mret (ReturnDeliverTxLog code.UnmarshalError err "")
                  | inl nodes =>
                      name ← getNodeNameByNodeID (RSD_NodeID funcParam);
                      let newNode :=
                        Build_ASNode (RSD_NodeID funcParam) name (RSD_MinIal funcParam)
                          (RSD_MinAal funcParam) (RSD_ServiceID funcParam) in
                      let nodes' :=
                        Build_GetAsNodesByServiceIdResult (Node nodes ++ [newNode]) in
                      match Marshal_GetAsNodesByServiceIdResult nodes' with
                      | inr err => mret (ReturnDeliverTxLog code.MarshalError err "")
                      | inl value =>
                          _ ← SetStateDB serviceDestinationKey value;
                          mret (ReturnDeliverTxLog code.OK "success" "")
                      end
                  end
              | None =>
                  name ← getNodeNameByNodeID (RSD_NodeID funcParam);
                  let newNode :=
                    Build_ASNode (RSD_NodeID funcParam) name (RSD_MinIal funcParam)
                      (RSD_MinAal funcParam) (RSD_ServiceID funcParam) in
                  let nodes' := Build_GetAsNodesByServiceIdResult ([] ++ [newNode]) in
                  match Marshal_GetAsNodesByServiceIdResult nodes' with
                  | inr err => mret (ReturnDeliverTxLog code.MarshalError err "")
                  | inl value =>
                      _ ← SetStateDB serviceDestinationKey value;
                      mret (ReturnDeliverTxLog code.OK "success" "")
                  end
              end
          end
      end
  end.

End ServiceDestination.

(** ** The lifecycle calls as the consensus engine issues them *)

Inductive Call :=
| CallBeginBlock
| CallDeliverTx (tx : string)
| CallCheckTx (tx : string)
| CallEndBlock
| CallCommit.

Inductive Response :=
| ResBeginBlock
| ResDeliverTx (res : ResponseDeliverTx)
| ResCheckTx (res : ResponseCheckTx)
| ResEndBlock (res : ResponseEndBlock)
| ResCommit (res : ResponseCommit).

Section Lifecycle.

Context {json : StateCodec} {ext : Collaborators}.

Definition handle (c : Call) (app : DIDApplication) : DIDApplication * Response :=
  match c with
  | CallBeginBlock => (BeginBlock app, ResBeginBlock)
  | CallDeliverTx tx => let r := DeliverTx tx app in (r.1, ResDeliverTx r.2)
  | CallCheckTx tx => let r := CheckTx tx app in (r.1, ResCheckTx r.2)
  | CallEndBlock => let r := EndBlock app in (r.1, ResEndBlock r.2)
  | CallCommit => let r := Commit app in (r.1, ResCommit r.2)
  end.

(** The application after a sequence of calls, and the responses in
    order. *)
Fixpoint run (calls : list Call) (app : DIDApplication)
  : DIDApplication * list Response :=
  match calls with
  | [] => (app, [])
  | c :: calls' =>
      let r := handle c app in
      let rs := run calls' r.1 in
      (rs.1, r.2 :: rs.2)
  end.

(** The [appHash] each [Commit] of the sequence returned. *)
Definition appHashes (rs : list Response) : list string :=
  omap (fun r => match r with ResCommit res => Some (Data res) | _ => None end) rs.

(** A sequence of [CheckTx] calls. *)
Definition check_all (txs : list string) (app : DIDApplication)
  : DIDApplication * list ResponseCheckTx :=
  foldl (fun acc tx => let r := CheckTx tx acc.1 in (r.1, acc.2 ++ [r.2]))
        (app, []) txs.

End Lifecycle.

(** ** Sample collaborators

    The theorems below hold for every codec, validator hook and router.  The
    worked examples run the engine with the following ones. *)

Module Sample.

Fixpoint parse_digits (s : string) (acc : Z) : option Z :=
  match s with
  | EmptyString => Some acc
  | String c s' =>
      d ← Ascii.is_nat c; parse_digits s' (10 * acc + Z.of_nat d)
  end.

Definition parse_Z (s : string) : option Z :=
  match s with
  | EmptyString => None
  | String "-" s' => z ← parse_digits s' 0; Some (- z)
  | _ => parse_digits s 0
  end.

Definition newline : ascii := "010"%char.

(** A state record on lines: size, height, app hash, commit string, and
    one line per uncommitted key. *)
Definition marshal (j : StateJSON.t) : string :=
  pretty (StateJSON.size j) +:+ String newline
    (pretty (StateJSON.height j) +:+ String newline
       (StateJSON.app_hash j +:+ String newline
          (StateJSON.commit_str j
             +:+ foldr (fun key rest => String newline (key +:+ rest)) ""
                   (StateJSON.uncommit_keys j)))).

Definition unmarshal (s : string) : option StateJSON.t :=
  match Strings.Split s newline with
  | sz :: h :: ah :: cs :: keys =>
      sz' ← parse_Z sz;
      h' ← parse_Z h;
      Some {| StateJSON.size := sz'; StateJSON.height := h';
              StateJSON.app_hash := ah; StateJSON.uncommit_keys := keys;
              StateJSON.commit_str := cs |}
  | _ => None
  end.

Definition codec : StateCodec :=
  {| json_Marshal := marshal; json_Unmarshal := unmarshal |}.

(** A validator transaction starts with ["val:"]; executing it queues one
    update. *)
Definition validator_prefix (tx : string) : bool :=
  bool_decide (String.substring 0 4 tx = "val:").

Definition queue_validator (tx : string) : M ResponseDeliverTx :=
  _ ← modify (fun app =>
        {| state := state app;
           ValUpdates := ValUpdates app ++ [{| PubKey := tx; Power := 1 |}];
           Version := Version app |});
  mret (ReturnDeliverTxLog code.OK "success" "").

(** Parameters and requests as delimited text: a parameter is
    [service,request,signature]; a request is
    [request;closed;timedout;datarequest;...], each data request being
    [service:as,...:answered,...]. *)
Definition parse_list (s : string) : list string :=
  if decide (s = "") then [] else Strings.Split s ",".

Definition parse_bool (s : string) : option bool :=
  if decide (s = "true") then Some true
  else if decide (s = "false") then Some false
  else None.

Definition print_bool (b : bool) : string := if b then "true" else "false".

Definition parse_param (s : string) : SignDataParam + string :=
  match Strings.Split s "," with
  | [service; request; signature] =>
      inl {| SignData_ServiceID := service; SignData_RequestID := request;
             SignData_Signature := signature |}
  | _ => inr "cannot unmarshal into SignDataParam"
  end.

Definition print_param (p : SignDataParam) : string + string :=
  inl (String.concat ","
         [SignData_ServiceID p; SignData_RequestID p; SignData_Signature p]).

Definition parse_data_request (s : string) : option DataRequest :=
  match Strings.Split s ":" with
  | [service; as_list; answered] =>
      Some {| ServiceID := service; As := parse_list as_list;
              AnsweredAsIdList := parse_list answered |}
  | _ => None
  end.

Definition print_data_request (d : DataRequest) : string :=
  String.concat ":"
    [ServiceID d; String.concat "," (As d); String.concat "," (AnsweredAsIdList d)].

Definition parse_request (s : string) : Request + string :=
  match Strings.Split s ";" with
  | request :: closed :: timedout :: data_requests =>
      match parse_bool closed, parse_bool timedout,
            mapM parse_data_request data_requests with
      | Some c, Some t, Some ds =>
          inl {| RequestID := request; DataRequestList := ds;
                 IsClosed := c; IsTimedOut := t |}
      | _, _, _ => inr "cannot unmarshal into Request"
      end
  | _ => inr "cannot unmarshal into Request"
  end.

Definition print_request (r : Request) : string + string :=
  inl (String.concat ";"
         (RequestID r :: print_bool (IsClosed r) :: print_bool (IsTimedOut r)
            :: map print_data_request (DataRequestList r))).

Definition as_codec : ASCodec :=
  {| Unmarshal_SignDataParam := parse_param;
     Unmarshal_Request := parse_request;
     Marshal_SignDataParam := print_param;
     Marshal_Request := print_request |}.

(** A router with two methods: ["Set"] stores the nonce under the
    parameter, ["SignData"] is the handler of as.go; any other method is
    not found. *)
Definition router (method param nonce signature nodeID : string)
  : M ResponseDeliverTx :=
  if decide (method = "Set") then
    _ ← SetStateDB param nonce;
    mret (ReturnDeliverTxLog code.OK "success" "")
  else if decide (method = "SignData") then
    signData (json_as := as_codec) param nodeID
  else mret (ReturnDeliverTxLog (code.Handler 1) "method can not be found" "").

Definition collaborators : Collaborators :=
  {| isValidatorTx := validator_prefix;
     execValidatorTx := queue_validator;
     DeliverTxRouter := router |}.

(** A router whose handler stores the nonce under the parameter and then
    panics, and the collaborators with it. *)
Definition faulty_router (method param nonce signature nodeID : string)
  : M ResponseDeliverTx :=
  _ ← SetStateDB param nonce; panic.

Definition faulty : Collaborators :=
  {| isValidatorTx := validator_prefix;
     execValidatorTx := queue_validator;
     DeliverTxRouter := faulty_router |}.

(** The application over an empty tree. *)
Definition fresh : DIDApplication :=
  {| state := {| db := ∅; Size := 0; Height := 0; AppHash := "";
                 UncommitKeys := []; CommitStr := "" |};
     ValUpdates := [];
     Version := "0.0.1" |}.

(** Application states the examples start from: a key stored once, a key
    stored twice, two keys stored, and a key stored and then deleted. *)
Definition stored_A : DIDApplication := (SetStateDB "A" "1" fresh).1.
Definition stored_AB : DIDApplication := (SetStateDB "B" "2" stored_A).1.

(** A store that holds the open request ["r1"] for the service ["svc"],
    served by the nodes ["as1"] and ["as2"]. *)
Definition with_request : DIDApplication :=
  (SetStateDB "Request|r1" "r1;false;false;svc:as1,as2:" fresh).1.

(** Transactions: the base64 text of the delimited string in the name. *)
Definition tx_onlyonefield : string := "b25seW9uZWZpZWxk".
(** ["Set|A|1|sig|node1"] *)
Definition tx_set_A : string := "U2V0fEF8MXxzaWd8bm9kZTE=".
(** ["Set|A|1|sig|node1|extra"] *)
Definition tx_six_fields : string := "U2V0fEF8MXxzaWd8bm9kZTF8ZXh0cmE=".
(** ["a|b|c|d|~"], whose base64 text ends in ['+'], with that ['+'] turned
    into a space. *)
Definition tx_spaced : string := "YXxifGN8ZHx ".

(** Service destinations as delimited text: a parameter is
    [node,service,ial,aal]; the list of nodes is [node;node;...], each node
    being [id:name:ial:aal:service]; a service is any non-empty text.  The
    assurance levels are kept as text.  The name of a node is what the store
    holds under ["NodeName|"] followed by its identifier. *)
Definition parse_rsd_param (s : string)
  : RegisterServiceDestinationParam string + string :=
  match Strings.Split s "," with
  | [node; service; ial; aal] =>
      inl {| RSD_NodeID := node; RSD_ServiceID := service;
             RSD_MinIal := ial; RSD_MinAal := aal |}
  | _ => inr "cannot unmarshal into RegisterServiceDestinationParam"
  end.

Definition parse_service (s : string) : string + string :=
  if decide (s = "") then inr "unexpected end of JSON input" else inl s.

Definition parse_node (s : string) : option (ASNode string) :=
  match Strings.Split s ":" with
  | [id; name; ial; aal; service] => Some (Build_ASNode id name ial aal service)
  | _ => None
  end.

Definition print_node (n : ASNode string) : string :=
  String.concat ":"
    [ASNode_1 _ n; ASNode_2 _ n; ASNode_3 _ n; ASNode_4 _ n; ASNode_5 _ n].

Definition parse_nodes (s : string) : GetAsNodesByServiceIdResult string + string :=
  match mapM parse_node (Strings.Split s ";") with
  | Some nodes => inl (Build_GetAsNodesByServiceIdResult nodes)
  | None => inr "cannot unmarshal into GetAsNodesByServiceIdResult"
  end.

Definition print_nodes (r : GetAsNodesByServiceIdResult string) : string + string :=
  inl (String.concat ";" (map print_node (Node r))).

Definition node_name (nodeID : string) : M string :=
  gets (fun app => default "" (db (state app) !! prefixKey ("NodeName|" +:+ nodeID))).

Definition destinations : ServiceDestinationDeps string string :=
  {| Unmarshal_RegisterServiceDestinationParam := parse_rsd_param;
     Unmarshal_Service := parse_service;
     Unmarshal_GetAsNodesByServiceIdResult := parse_nodes;
     Marshal_GetAsNodesByServiceIdResult := print_nodes;
     getNodeNameByNodeID := node_name |}.

(** A store that holds the service ["svc"] and the name of the node
    ["as1"]. *)
Definition with_service : DIDApplication :=
  (SetStateDB "NodeName|as1" "First AS" (SetStateDB "Service|svc" "bank statement" fresh).1).1.

(** A query router with one method, ["Get"], which answers with the value
    stored under the parameter; the response is the value, the log and the
    height. *)
Definition query_deps : QueryDeps (option string * string * Z) :=
  {| QueryRouter := fun method param height =>
       if decide (method = "Get") then
         gets (fun app => (db (state app) !! prefixKey param, "success",
                           Height (state app)))
       else gets (fun app => (None, "method can not be found", Height (state app)));
     ReturnQuery := fun value log height app => (value, log, height) |}.

End Sample.

(** ** The commit-hash protocol in the words of the spec *)

(** The accumulator of the commit-hash protocol, following the words of the
    spec (section 4.4): for each key of the tracker, in insertion order and
    without deduplication, the raw key followed by its current value if the
    store holds one. *)
Definition accumulator (tree : gmap string string) (keys : list string) : string :=
  foldr (fun key rest =>
           match tree !! prefixKey key with
           | Some value => key +:+ value +:+ rest
           | None => rest
           end) "" keys.

(** The next commit string, following the words of the spec. *)
Definition next_commitStr (commitStr acc : string) : string :=
  if decide (acc = "") then commitStr
  else Hex.EncodeToString (Sha256.Sum (commitStr +:+ acc)).

(** ** Sequences of store operations, as a handler issues them *)

Inductive StoreOp :=
| OpSet (key value : string)
| OpDelete (key : string).

Definition store_op (op : StoreOp) : M unit :=
  match op with
  | OpSet key value => SetStateDB key value
  | OpDelete key => DeleteStateDB key
  end.

Fixpoint store_ops (ops : list StoreOp) : M unit :=
  match ops with
  | [] => mret tt
  | op :: ops' => _ ← store_op op; store_ops ops'
  end.

(** The keys a sequence of store operations adds to the tracker, and its
    net effect on the size counter. *)
Definition tracked (ops : list StoreOp) : list string :=
  omap (fun op => match op with
                  | OpSet key _ => if decide (key ≠ "stateKey") then Some key else None
                  | OpDelete _ => None
                  end) ops.

Fixpoint net_size (ops : list StoreOp) : Z :=
  match ops with
  | [] => 0
  | OpSet _ _ :: ops' => 1 + net_size ops'
  | OpDelete _ :: ops' => -1 + net_size ops'
  end.

(** The number of [Commit] calls of a sequence of lifecycle calls. *)
Fixpoint commits (calls : list Call) : Z :=
  match calls with
  | [] => 0
  | CallCommit :: calls' => 1 + commits calls'
  | _ :: calls' => commits calls'
  end.

(** A call that leaves the height, the application hash and the commit
    string as they are, whatever else it does. *)
Definition keeps_chain {A} (m : M A) : Prop :=
  ∀ app, Height (state (m app).1) = Height (state app)
         ∧ AppHash (state (m app).1) = AppHash (state app)
         ∧ CommitStr (state (m app).1) = CommitStr (state app).

(** Every character of a string is one of those of [alphabet]. *)
Fixpoint all_in (alphabet s : string) : bool :=
  match s with
  | EmptyString => true
  | String c s' => Strings.contains alphabet c && all_in alphabet s'
  end.

(** The nodes registered so far for a service: none when the store holds
    no list under the key, the decoded list when it holds one that parses. *)
Definition stored_destinations {number Service : Type}
    {deps : ServiceDestinationDeps number Service}
    (app : DIDApplication) (serviceDestinationKey : string)
  : option (list (ASNode number)) :=
  match db (state app) !! prefixKey serviceDestinationKey with
  | None => Some []
  | Some text =>
      match Unmarshal_GetAsNodesByServiceIdResult text with
      | inl nodes => Some (Node nodes)
      | inr _ => None
      end
  end.

(** ** The client side of the envelope

    The engine only decodes.  To state what it does with a well-formed
    transaction, the encoder a client applies is written out:
    [base64.StdEncoding.EncodeToString] (RFC 4648, with padding) on the five
    fields joined by the delimiter. *)

Module Client.

Definition byte_of (c : ascii) : Z := Z.of_N (N_of_ascii c).

(** [enc.encode[n]] for a six-bit value. *)
Definition encode_char (n : Z) : ascii :=
  match String.get (Z.to_nat n) Base64.encodeStd with
  | Some c => c
  | None => "A"%char
  end.

(** Three bytes give four characters; a last group of one or two bytes is
    padded. *)
Fixpoint EncodeToString (src : string) : string :=
  match src with
  | EmptyString => EmptyString
  | String c0 EmptyString =>
      let b0 := byte_of c0 in
      String (encode_char (b0 / 4))
        (String (encode_char (b0 mod 4 * 16))
           (String Base64.padChar (String Base64.padChar EmptyString)))
  | String c0 (String c1 EmptyString) =>
      let b0 := byte_of c0 in
      let b1 := byte_of c1 in
      String (encode_char (b0 / 4))
        (String (encode_char (b0 mod 4 * 16 + b1 / 16))
           (String (encode_char (b1 mod 16 * 4))
              (String Base64.padChar EmptyString)))
  | String c0 (String c1 (String c2 rest)) =>
      let b0 := byte_of c0 in
      let b1 := byte_of c1 in
      let b2 := byte_of c2 in
      String (encode_char (b0 / 4))
        (String (encode_char (b0 mod 4 * 16 + b1 / 16))
           (String (encode_char (b1 mod 16 * 4 + b2 / 64))
              (String (encode_char (b2 mod 64)) (EncodeToString rest))))
  end.

(** The delimited string of the five fields, and the transaction. *)
Definition delimited (method param nonce signature nodeID : string) : string :=
  String.concat "|" [method; param; nonce; signature; nodeID].

Definition transaction (method param nonce signature nodeID : string) : string :=
  EncodeToString (delimited method param nonce signature nodeID).

End Client.

(** ** The migration tool: what [main] writes to the two backup files

    The tree is the sequence of its entries in the order [Iterate] visits
    them.  The files are modelled by their contents: [main] deletes both
    before the walk, and [fWriteLn] appends its data and a CR LF.  Copying
    the database directory and opening the tree are file system operations
    and are not modelled. *)

Module Migrate.

(** [strings.Contains]: [substr] occurs in [s]; the empty string occurs in
    every string. *)
Fixpoint Contains (s substr : string) : bool :=
  String.prefix substr s
  || match s with
     | EmptyString => false
     | String _ s' => Contains s' substr
     end.

(** [tree.Get(key)]: the value, or [nil]. *)
Fixpoint Get (tree : list (string * string)) (key : string) : option string :=
  match tree with
  | [] => None
  | (k, v) :: tree' => if decide (k = key) then Some v else Get tree' key
  end.

Record Files := { data_txt : string; validators_txt : string }.

Definition crlf : string := String "013" (String "010" EmptyString).

(** [fWriteLn(filename, data)] on the contents of the file. *)
Definition fWriteLn (content data : string) : string := content +:+ data +:+ crlf.

Section Walk.

(** [json.Marshal] of a [did.KeyValue] (a type that is not among the
    sources); [None] is an error, on which the callback panics. *)
Context (Marshal_KeyValue : string -> string -> option string).

(** The callback of [tree.Iterate], which never asks to stop. *)
Definition visit (ndidNodeID : string) (files : Files) (key value : string)
  : Files * outcome unit :=
  if Contains key "val:" then
    match Marshal_KeyValue key value with
    | None => (files, Panicked)
    | Some jsonStr =>
        ({| data_txt := data_txt files;
            validators_txt := fWriteLn (validators_txt files) jsonStr |}, Done tt)
    end
  else if Contains key ndidNodeID then (files, Done tt)
  else if Contains key "MasterNDID" then (files, Done tt)
  else if Contains key "InitState" then (files, Done tt)
  else
    match Marshal_KeyValue key value with
    | None => (files, Panicked)
    | Some jsonStr =>
        ({| data_txt := fWriteLn (data_txt files) jsonStr;
            validators_txt := validators_txt files |}, Done tt)
    end.

Fixpoint Iterate (ndidNodeID : string) (entries : list (string * string))
    (files : Files) : Files * outcome unit :=
  match entries with
  | [] => (files, Done tt)
  | (key, value) :: entries' =>
      match visit ndidNodeID files key value with
      | (files', Done _) => Iterate ndidNodeID entries' files'
      | (files', Panicked) => (files', Panicked)
      end
  end.

(** The walk of [main] over the tree, from the two deleted files. *)
Definition backup (tree : list (string * string)) : Files * outcome unit :=
  let ndidNodeID := default "" (Get tree (prefixKey "MasterNDID")) in
  Iterate ndidNodeID tree {| data_txt := ""; validators_txt := "" |}.

(** Which file an entry belongs to, if any. *)
Definition is_validator (key : string) : bool := Contains key "val:".

Definition is_data (ndidNodeID key : string) : bool :=
  negb (Contains key "val:") && negb (Contains key ndidNodeID)
  && negb (Contains key "MasterNDID") && negb (Contains key "InitState").

(** The lines of the entries that satisfy [keep], in order. *)
Fixpoint lines (keep : string -> bool) (entries : list (string * string)) : string :=
  match entries with
  | [] => ""
  | (key, value) :: entries' =>
      if keep key then
        default "" (Marshal_KeyValue key value) +:+ crlf +:+ lines keep entries'
      else lines keep entries'
  end.

End Walk.

(** A sample encoding of a key and its value, and a sample tree. *)
Definition sample_marshal (key value : string) : option string :=
  Some (key +:+ "=" +:+ value).

Definition sample_tree : list (string * string) :=
  [("kvPairKey:MasterNDID", "ndid1");
   ("kvPairKey:NodeID|idp1", "node detail");
   ("kvPairKey:NodeID|ndid1", "ndid detail");
   ("kvPairKey:interval:5", "a data key with val: inside");
   ("stateKey", "state record");
   ("val:abc", "10")].

Definition sample_tree_without_master : list (string * string) :=
  [("kvPairKey:NodeID|idp1", "node detail");
   ("stateKey", "state record");
   ("val:abc", "10")].

End Migrate.

(** A text without its line breaks (CR and LF). *)
Fixpoint without_newlines (s : string) : string :=
  match s with
  | EmptyString => EmptyString
  | String c s' =>
      if Base64.is_newline c then without_newlines s'
      else String c (without_newlines s')
  end.

(** Two results of the decoder agree: the same bytes, or an error each. *)
Definition same_result (x y : string + Base64.error) : Prop :=
  match x, y with
  | inl a, inl b => a = b
  | inr _, inr _ => True
  | _, _ => False
  end.

(** * Properties *)

(** An error response of a handler that has not touched the application. *)
Ltac rsd_error :=
  eexists _, _; split; [reflexivity|]; simpl;
  split; [done | intros Hok; discriminate Hok].

(** Unfolding of the calls on the application. *)
Ltac unfold_M :=
  unfold recover, mbind, M_bind, mret, M_ret, index, panic, gets, modify in *.

(** ** The library functions on test vectors *)

Example sha256_empty :
  Hex.EncodeToString (Sha256.Sum "")
  = "e3b0c44298fc1c149afbf4c8996fb92427ae41e4649b934ca495991b7852b855".
Proof. vm_compute. reflexivity. Qed.

Example sha256_abc :
  Hex.EncodeToString (Sha256.Sum "abc")
  = "ba7816bf8f01cfea414140de5dae2223b00361a396177a9cb410ff61f20015ad".
Proof. vm_compute. reflexivity. Qed.

Example sha256_two_blocks :
  Hex.EncodeToString
    (Sha256.Sum "abcdbcdecdefdefgefghfghighijhijkijkljklmklmnlmnomnopnopq")
  = "248d6a61d20638b8e5c026930c3e6039a33ce45964ff2167f6ecedd419db06c1".
Proof. vm_compute. reflexivity. Qed.

Example base64_decode :
  Base64.DecodeString "YXxifGN8ZHxl" = inl "a|b|c|d|e"
  ∧ Base64.DecodeString "YXxifGN8ZHxlfGY=" = inl "a|b|c|d|e|f"
  ∧ Base64.DecodeString "YWI=" = inl "ab"
  ∧ Base64.DecodeString "" = inl ""
  ∧ Base64.DecodeString "YQ=" = inr (Base64.CorruptInputError 3)
  ∧ Base64.DecodeString "YQ==x" = inr (Base64.CorruptInputError 4)
  ∧ Base64.DecodeString "val:abc" = inr (Base64.CorruptInputError 3).
Proof. vm_compute. repeat split; reflexivity. Qed.

Example strings_Split :
  Strings.Split "a|b||" "|" = ["a"; "b"; ""; ""]
  ∧ Strings.Split "" "|" = [""]
  ∧ Strings.Split "onlyonefield" "|" = ["onlyonefield"].
Proof. vm_compute. repeat split; reflexivity. Qed.

(** ** Arithmetic and strings *)

Lemma Int64_incr_in_range (z : Z) :
  Int64.min <= z < Int64.max -> Int64.incr z = z + 1.
Proof.
  unfold Int64.incr, Int64.wrap, Int64.min, Int64.max. intros Hz.
  rewrite Z.mod_small; lia.
Qed.

Lemma Int64_incr_max : Int64.incr Int64.max = Int64.min.
Proof. reflexivity. Qed.

Lemma append_cons (c : ascii) (s t : string) : String c s +:+ t = String c (s +:+ t).
Proof. reflexivity. Qed.

Lemma append_nil_l (s : string) : "" +:+ s = s.
Proof. reflexivity. Qed.

Lemma append_nil_r (s : string) : s +:+ "" = s.
Proof.
  induction s as [|c s IH]; [done|]. by rewrite append_cons, IH.
Qed.

Lemma append_assoc (s1 s2 s3 : string) : (s1 +:+ s2) +:+ s3 = s1 +:+ (s2 +:+ s3).
Proof.
  induction s1 as [|c s1 IH]; [done|]. by rewrite !append_cons, IH.
Qed.

Lemma append_eq_nil (s1 s2 : string) : s1 +:+ s2 = "" -> s1 = "" ∧ s2 = "".
Proof. destruct s1; [done|]. rewrite append_cons. discriminate. Qed.

(** The reserved state record key is outside the namespace of the data
    keys. *)
Lemma prefixKey_not_stateKey (key : string) : prefixKey key ≠ stateKey.
Proof.
  unfold prefixKey, kvPairPrefixKey, stateKey. rewrite append_cons. intros [=].
Qed.

Lemma prefixKey_inj (k1 k2 : string) : prefixKey k1 = prefixKey k2 -> k1 = k2.
Proof.
  unfold prefixKey, kvPairPrefixKey.
  rewrite !append_cons, !append_nil_l. congruence.
Qed.

(** ** The store operations *)

(** C5 (as amended): [SetStateDB] writes the value under the prefixed key
    and increments [Size] by one, also when the key already holds a value;
    it appends the raw key to [UncommitKeys], duplicates included, for every
    key except the reserved ["stateKey"], for which the tracker is left as it
    is.  It touches nothing else and does not panic. *)
Theorem SetStateDB_effect (key value : string) (app : DIDApplication) :
  Int64.min <= Size (state app) < Int64.max ->
  let st := state app in
  let keys := if decide (key = "stateKey") then UncommitKeys st
              else UncommitKeys st ++ [key] in
  SetStateDB key value app =
    ({| state := {| db := <[prefixKey key := value]> (db st);
                    Size := Size st + 1;
                    Height := Height st;
                    AppHash := AppHash st;
                    UncommitKeys := keys;
                    CommitStr := CommitStr st |};
        ValUpdates := ValUpdates app;
        Version := Version app |}, Done tt).
Proof.
  intros Hsize st keys. unfold SetStateDB, modify. subst st keys.
  rewrite (Int64_incr_in_range _ Hsize).
  repeat case_decide; done.
Qed.

(** The tracker after a store of a key that is not the reserved one. *)
Lemma SetStateDB_tracks (key value : string) (app : DIDApplication) :
  key ≠ "stateKey" ->
  UncommitKeys (state (SetStateDB key value app).1)
  = UncommitKeys (state app) ++ [key].
Proof. intros Hk. unfold SetStateDB, modify. simpl. by case_decide. Qed.

Lemma SetStateDB_lookup (key value : string) (app : DIDApplication) :
  db (state (SetStateDB key value app).1) !! prefixKey key = Some value.
Proof. unfold SetStateDB, modify. simpl. apply lookup_insert_eq. Qed.

(** ** Commit *)

Lemma commit_loop (tree : gmap string string) (keys : list string) (acc : string) :
  fold_left (commit_key tree) keys acc = acc +:+ accumulator tree keys.
Proof.
  revert acc. induction keys as [|key keys IH]; intros acc; simpl.
  - by rewrite append_nil_r.
  - rewrite IH. unfold commit_key.
    destruct (tree !! prefixKey key) as [value|]; [|done].
    by rewrite !append_assoc.
Qed.


(** [Commit] as one equation, with the loop replaced by the accumulator. *)
Lemma Commit_unfold {json : StateCodec} (app : DIDApplication) :
  let st := state app in
  let commitStr' :=
    next_commitStr (CommitStr st) (accumulator (db st) (UncommitKeys st)) in
  let height' := Int64.incr (Height st) in
  Commit app =
    ({| state := {| db := <[stateKey :=
                            json_Marshal
                              {| StateJSON.size := Size st;
                                 StateJSON.height := height';
                                 StateJSON.app_hash := commitStr';
                                 StateJSON.uncommit_keys := UncommitKeys st;
                                 StateJSON.commit_str := commitStr' |}]> (db st);
                    Size := Size st;
                    Height := height';
                    AppHash := commitStr';
                    UncommitKeys := [];
                    CommitStr := commitStr' |};
        ValUpdates := ValUpdates app;
        Version := Version app |},
     {| Data := commitStr' |}).
Proof.
  intros st commitStr' height'. subst commitStr' height' st.
  unfold Commit, saveState, StateJSON.of_State, next_commitStr. simpl.
  rewrite commit_loop, append_nil_l.
  repeat case_decide; done.
Qed.

(** C2: the postcondition of [Commit].  With [acc] the accumulator over the
    tracker and [commitStr'] the hex SHA-256 digest of the previous commit
    string followed by [acc] (or the previous commit string when [acc] is
    empty), [Commit] makes [commitStr'] the commit string and the application
    hash, increments [Height] by exactly one, persists the record, tracker
    included, under the reserved key, resets the tracker, and returns the new
    application hash. *)
Theorem Commit_postcondition {json : StateCodec} (app : DIDApplication) :
  Int64.min <= Height (state app) < Int64.max ->
  let st := state app in
  let acc := accumulator (db st) (UncommitKeys st) in
  let commitStr' := next_commitStr (CommitStr st) acc in
  let record := {| StateJSON.size := Size st;
                   StateJSON.height := Height st + 1;
                   StateJSON.app_hash := commitStr';
                   StateJSON.uncommit_keys := UncommitKeys st;
                   StateJSON.commit_str := commitStr' |} in
  Commit app =
    ({| state := {| db := <[stateKey := json_Marshal record]> (db st);
                    Size := Size st;
                    Height := Height st + 1;
                    AppHash := commitStr';
                    UncommitKeys := [];
                    CommitStr := commitStr' |};
        ValUpdates := ValUpdates app;
        Version := Version app |},
     {| Data := commitStr' |}).
Proof.
  intros Hh st acc commitStr' record.
  subst record commitStr' acc st.
  rewrite Commit_unfold. cbv zeta.
  by rewrite (Int64_incr_in_range _ Hh).
Qed.

(** The overwrite of a key that already holds a value: the key is tracked a
    second time and [Size] drifts upward. *)
Lemma SetStateDB_effect_witness :
  SetStateDB "A" "2" Sample.stored_A =
    ({| state := {| db := <[prefixKey "A" := "2"]> (db (state Sample.stored_A));
                    Size := 2; Height := 0; AppHash := "";
                    UncommitKeys := ["A"; "A"]; CommitStr := "" |};
        ValUpdates := []; Version := "0.0.1" |}, Done tt).
Proof.
  apply (SetStateDB_effect "A" "2" Sample.stored_A).
  vm_compute. split; congruence.
Defined.

(** C5, as stated, fails on the reserved key: [SetStateDB] does not append
    it to the tracker. *)
Lemma SetStateDB_stateKey_untracked :
  UncommitKeys (state (SetStateDB "stateKey" "v" Sample.fresh).1) = []
  ∧ UncommitKeys (state (SetStateDB "stateKey" "v" Sample.fresh).1)
    ≠ UncommitKeys (state Sample.fresh) ++ ["stateKey"].
Proof. vm_compute. split; [reflexivity | discriminate]. Qed.

(** Scenario 2 of the spec: after [set("A","1")] and [set("B","2")] on a
    fresh application, [Commit] returns the hex SHA-256 digest of ["A1B2"],
    moves the height from 0 to 1 and empties the tracker. *)
Lemma Commit_postcondition_witness :
  let r := Commit (json := Sample.codec) Sample.stored_AB in
  Data r.2 = "b7e9e16ed1eaacb04679c1173b0982f87ab5dc3f05c87ce1aacfdf3443955830"
  ∧ AppHash (state r.1) = Data r.2
  ∧ Height (state r.1) = 1
  ∧ UncommitKeys (state r.1) = [].
Proof.
  intros r. subst r.
  rewrite (Commit_postcondition (json := Sample.codec) Sample.stored_AB).
  - vm_compute. done.
  - vm_compute. split; congruence.
Defined.

(** ** Hash purity *)

Lemma accumulator_nil (tree : gmap string string) : accumulator tree [] = "".
Proof. reflexivity. Qed.

Lemma accumulator_absent (tree : gmap string string) (keys : list string) :
  (∀ key, key ∈ keys -> tree !! prefixKey key = None) ->
  accumulator tree keys = "".
Proof.
  induction keys as [|key keys IH]; intros Habs; simpl; [done|].
  rewrite (Habs key) by apply list_elem_of_here.
  apply IH. intros k Hk. by apply Habs, list_elem_of_further.
Qed.






(** ** The transaction envelope *)

(** The five [parts[i]] of [DeliverTx] and [CheckTx]: a panic on fewer than
    five parts, the first five otherwise. *)
Lemma index_short {A} (parts : list string)
    (k : string -> string -> string -> string -> string -> M A)
    (app : DIDApplication) :
  (length parts < 5)%nat ->
  (method ← index parts 0; param ← index parts 1; nonce ← index parts 2;
   signature ← index parts 3; nodeID ← index parts 4;
   k method param nonce signature nodeID) app = (app, Panicked).
Proof.
  destruct parts as [|m [|p [|n [|s [|id rest]]]]]; simpl; intros Hlen;
    solve [reflexivity | lia].
Qed.

Lemma index_five {A} (m p n s id : string) (rest : list string)
    (k : string -> string -> string -> string -> string -> M A)
    (app : DIDApplication) :
  (method ← index (m :: p :: n :: s :: id :: rest) 0;
   param ← index (m :: p :: n :: s :: id :: rest) 1;
   nonce ← index (m :: p :: n :: s :: id :: rest) 2;
   signature ← index (m :: p :: n :: s :: id :: rest) 3;
   nodeID ← index (m :: p :: n :: s :: id :: rest) 4;
   k method param nonce signature nodeID) app = k m p n s id app.
Proof. unfold_M. simpl. by destruct (k m p n s id app) as [app' [res|]]. Qed.

Lemma short_or_five (parts : list string) :
  (length parts < 5)%nat
  ∨ ∃ m p n s id rest, parts = m :: p :: n :: s :: id :: rest.
Proof.
  destruct parts as [|m [|p [|n [|s [|id rest]]]]]; simpl;
    try (left; lia). right. by exists m, p, n, s, id, rest.
Qed.

(** ** CheckTx *)

(** [CheckTx] leaves the application as it is, whatever the transaction. *)
Lemma CheckTx_frame {ext : Collaborators} (tx : string) (app : DIDApplication) :
  (CheckTx tx app).1 = app.
Proof.
  unfold CheckTx. destruct (isValidatorTx tx); [done|].
  destruct (Base64.DecodeString _) as [txString|err]; [|done].
  destruct (short_or_five (Strings.Split txString "|"))
    as [Hshort | (m & p & n & s & id & rest & ->)].
  - unfold recover. by rewrite index_short.
  - unfold recover. rewrite index_five. by case_decide.
Qed.

(** The response of [CheckTx] does not depend on the application: it is
    computed without reading the store. *)
Lemma CheckTx_stateless {ext : Collaborators} (tx : string) (app app' : DIDApplication) :
  (CheckTx tx app).2 = (CheckTx tx app').2.
Proof.
  unfold CheckTx. destruct (isValidatorTx tx); [done|].
  destruct (Base64.DecodeString _) as [txString|err]; [|done].
  destruct (short_or_five (Strings.Split txString "|"))
    as [Hshort | (m & p & n & s & id & rest & ->)].
  - unfold recover. by rewrite !index_short.
  - unfold recover. rewrite !index_five. by case_decide.
Qed.

(** C6 (as amended): for a transaction that is not the privileged validator
    transaction, [CheckTx] accepts if and only if the base64 decoding (of
    the text with its spaces turned into ['+']) succeeds and the decoded
    string splits on ['|'] into at least five fields of which the first five
    are non-empty; fields beyond the fifth are ignored.  In every case the
    application is left as it is and the response does not depend on it. *)
Theorem CheckTx_accepts {ext : Collaborators} (tx : string) (app : DIDApplication) :
  isValidatorTx tx = false ->
  (accepted (CheckTx tx app).2 = true ↔
     ∃ txString method param nonce signature nodeID rest,
       Base64.DecodeString (Strings.Replace tx " " "+") = inl txString
       ∧ Strings.Split txString "|" = method :: param :: nonce :: signature :: nodeID :: rest
       ∧ method ≠ "" ∧ param ≠ "" ∧ nonce ≠ "" ∧ signature ≠ "" ∧ nodeID ≠ "")
  ∧ (CheckTx tx app).1 = app
  ∧ (∀ app', (CheckTx tx app').2 = (CheckTx tx app).2).
Proof.
  intros Hval. split; [|split; [apply CheckTx_frame | intros; apply CheckTx_stateless]].
  unfold CheckTx. rewrite Hval.
  destruct (Base64.DecodeString _) as [txString|err]; simpl.
  - destruct (short_or_five (Strings.Split txString "|"))
      as [Hshort | (m & p & n & s & id & rest & Hsplit)].
    + unfold recover. rewrite index_short by done. simpl. split; [done|].
      intros (txString' & m & p & n & s & id & rest & [= <-] & Hsplit & _).
      rewrite Hsplit in Hshort. simpl in Hshort. lia.
    + unfold recover. rewrite Hsplit, index_five. case_decide as Hne; simpl.
      * split; [|done]. intros _. by exists txString, m, p, n, s, id, rest.
      * split; [done|].
        intros (txString' & m' & p' & n' & s' & id' & rest' & [= <-] & Hsplit' & Hne').
        rewrite Hsplit in Hsplit'. simplify_eq. by destruct Hne.
  - split; [done|]. by intros (txString & m & p & n & s & id & rest & [=] & _).
Qed.

(** C7: a sequence of [CheckTx] calls, whatever the transactions, leaves the
    application exactly as it was: the store, [Size], [Height], [AppHash],
    [UncommitKeys] and [CommitStr] (and the pending validator updates). *)
Theorem CheckTx_sequence_frame {ext : Collaborators} (txs : list string)
    (app : DIDApplication) :
  (check_all txs app).1 = app
  ∧ length (check_all txs app).2 = length txs.
Proof.
  unfold check_all.
  set (step := fun (acc : DIDApplication * list ResponseCheckTx) tx =>
                 let r := CheckTx tx acc.1 in (r.1, acc.2 ++ [r.2])).
  enough (Hgen : ∀ (rs : list ResponseCheckTx),
             (foldl step (app, rs) txs).1 = app
             ∧ length (foldl step (app, rs) txs).2 = (length rs + length txs)%nat).
  { apply (Hgen []). }
  induction txs as [|tx txs IH]; intros rs; simpl.
  - split; [done | lia].
  - unfold step at 2 4. simpl. rewrite CheckTx_frame.
    destruct (IH (rs ++ [(CheckTx tx app).2])) as [Happ Hlen].
    split; [exact Happ|]. rewrite Hlen, length_app. simpl. lia.
Qed.

(** A transaction that is not a validator transaction and decodes to five
    non-empty fields is accepted. *)
Lemma CheckTx_accepts_witness :
  accepted (CheckTx (ext := Sample.collaborators) Sample.tx_set_A Sample.fresh).2 = true.
Proof.
  apply (CheckTx_accepts (ext := Sample.collaborators) Sample.tx_set_A Sample.fresh).
  - reflexivity.
  - exists "Set|A|1|sig|node1", "Set", "A", "1", "sig", "node1", [].
    vm_compute. repeat split; congruence.
Defined.

(** C6, as stated, fails on a wrong field count: a transaction of six
    non-empty fields is accepted. *)
Lemma CheckTx_accepts_six_fields :
  Sample.validator_prefix Sample.tx_six_fields = false
  ∧ Base64.DecodeString (Strings.Replace Sample.tx_six_fields " " "+")
    = inl "Set|A|1|sig|node1|extra"
  ∧ Strings.Split "Set|A|1|sig|node1|extra" "|"
    = ["Set"; "A"; "1"; "sig"; "node1"; "extra"]
  ∧ CheckTx (ext := Sample.collaborators) Sample.tx_six_fields Sample.fresh
    = (Sample.fresh, ReturnCheckTx true).
Proof. vm_compute. repeat split; reflexivity. Qed.

(** ** DeliverTx *)

Lemma DeliverTx_short {ext : Collaborators} (tx txString : string)
    (app : DIDApplication) :
  isValidatorTx tx = false ->
  Base64.DecodeString tx = inl txString ->
  (length (Strings.Split txString "|") < 5)%nat ->
  DeliverTx tx app
  = (app, ReturnDeliverTxLog code.WrongTransactionFormat "wrong transaction format" "").
Proof.
  intros Hval Hdec Hshort. unfold DeliverTx. rewrite Hval, Hdec.
  unfold recover. by rewrite index_short.
Qed.

Lemma DeliverTx_fields {ext : Collaborators} (tx txString : string)
    (method param nonce signature nodeID : string) (rest : list string)
    (app : DIDApplication) :
  isValidatorTx tx = false ->
  Base64.DecodeString tx = inl txString ->
  Strings.Split txString "|" = method :: param :: nonce :: signature :: nodeID :: rest ->
  DeliverTx tx app =
    if decide (method ≠ "") then
      recover (DeliverTxRouter method param nonce signature nodeID)
        (ReturnDeliverTxLog code.WrongTransactionFormat "wrong transaction format" "")
        app
    else
      (app, ReturnDeliverTxLog code.MethodCanNotBeEmpty "method can not be empty" "").
Proof.
  intros Hval Hdec Hsplit. unfold DeliverTx. rewrite Hval, Hdec, Hsplit.
  unfold recover at 1. rewrite index_five. by case_decide.
Qed.

(** C4 (as amended): for a transaction that is not the privileged validator
    transaction and whose base64 decoding succeeds, a decoded string that
    splits on ['|'] into fewer than five fields yields the
    wrong-transaction-format response and leaves the application as it was;
    a decoded string of five fields or more is not rejected for its field
    count: its first five fields go to the router (or, with an empty method,
    yield method-can-not-be-empty), and the fields beyond the fifth are
    ignored. *)
Theorem DeliverTx_field_count {ext : Collaborators} (tx txString : string)
    (app : DIDApplication) :
  isValidatorTx tx = false ->
  Base64.DecodeString tx = inl txString ->
  let wrong_format :=
    ReturnDeliverTxLog code.WrongTransactionFormat "wrong transaction format" "" in
  ((length (Strings.Split txString "|") < 5)%nat ->
   DeliverTx tx app = (app, wrong_format))
  ∧ (∀ method param nonce signature nodeID rest,
       Strings.Split txString "|" = method :: param :: nonce :: signature :: nodeID :: rest ->
       DeliverTx tx app =
         if decide (method ≠ "") then
           recover (DeliverTxRouter method param nonce signature nodeID) wrong_format app
         else
           (app, ReturnDeliverTxLog code.MethodCanNotBeEmpty "method can not be empty" "")).
Proof.
  intros Hval Hdec wrong_format. split.
  - intros Hshort. by apply (DeliverTx_short tx txString).
  - intros m p n s id rest Hsplit.
    by apply (DeliverTx_fields tx txString m p n s id rest).
Qed.

(** Scenario 3 of the spec: the transaction ["onlyonefield"] is rejected and
    changes nothing. *)
Lemma DeliverTx_field_count_witness :
  DeliverTx (ext := Sample.collaborators) Sample.tx_onlyonefield Sample.fresh
  = (Sample.fresh,
     ReturnDeliverTxLog code.WrongTransactionFormat "wrong transaction format" "").
Proof.
  apply (DeliverTx_field_count (ext := Sample.collaborators)
           Sample.tx_onlyonefield "onlyonefield" Sample.fresh).
  - reflexivity.
  - vm_compute. reflexivity.
  - vm_compute. lia.
Defined.

(** C4, as stated, fails on more than five fields: the transaction
    ["Set|A|1|sig|node1|extra"] splits into six fields, yet it reaches the
    router, is answered [OK] and mutates the store, the tracker and the
    size. *)
Lemma DeliverTx_six_fields_dispatched :
  let r := DeliverTx (ext := Sample.collaborators) Sample.tx_six_fields Sample.fresh in
  Base64.DecodeString Sample.tx_six_fields = inl "Set|A|1|sig|node1|extra"
  ∧ length (Strings.Split "Set|A|1|sig|node1|extra" "|") = 6%nat
  ∧ Code r.2 = code.OK
  ∧ r.1 = Sample.stored_A
  ∧ UncommitKeys (state r.1) = ["A"]
  ∧ Size (state r.1) = 1
  ∧ db (state r.1) !! prefixKey "A" = Some "1".
Proof. vm_compute. repeat split; reflexivity. Qed.

(** ** Spaces in the base64 text *)

Lemma skip_newlines_contains (src : string) (si : nat) (c : ascii) :
  Base64.is_newline c = false ->
  Strings.contains (Base64.skip_newlines src si).1 c = Strings.contains src c.
Proof.
  intros Hc. revert si. induction src as [|d src IH]; intros si; simpl; [done|].
  destruct (Base64.is_newline d) eqn:Hd; [|done].
  rewrite IH. destruct (Ascii.eqb_spec d c) as [->|]; [congruence | done].
Qed.

Lemma padding_space (dbuf : list Z) (rest : string) (si : nat) :
  Strings.contains rest " " = true ->
  ∃ e, Base64.padding dbuf rest si = inr e.
Proof.
  intros Hsp.
  assert (Hfinish : ∀ tail sj, Strings.contains tail " " = true ->
            ∃ e, match Base64.skip_newlines tail sj with
                 | (EmptyString, _) => inl (Base64.assemble dbuf (length dbuf))
                 | (String _ _, sk) => inr (Base64.CorruptInputError sk)
                 end = inr e).
  { intros tail sj Htail.
    pose proof (skip_newlines_contains tail sj " " eq_refl) as Hskip.
    destruct (Base64.skip_newlines tail sj) as [[|d tail'] sk]; simpl in Hskip.
    - congruence.
    - by eexists. }
  unfold Base64.padding.
  destruct (length dbuf) as [|[|[|j]]]; try by eexists.
  - pose proof (skip_newlines_contains rest (S si) " " eq_refl) as Hskip.
    destruct (Base64.skip_newlines rest (S si)) as [[|d rest'] sj]; simpl in *.
    + by eexists.
    + destruct (Ascii.eqb_spec d Base64.padChar) as [->|]; [|by eexists].
      apply Hfinish. rewrite Hsp in Hskip. by simpl in Hskip.
  - by apply Hfinish.
Qed.

(** [DecodeString] fails on every text that contains a space. *)
Lemma decode_space (src : string) (si : nat) (dbuf : list Z) :
  Strings.contains src " " = true ->
  ∃ e, Base64.decode src si dbuf = inr e.
Proof.
  revert si dbuf. induction src as [|c src IH]; intros si dbuf Hsp; simpl in *.
  - done.
  - destruct (Ascii.eqb_spec c " ") as [->|Hc].
    + by eexists.
    + simpl in Hsp.
      destruct (Base64.decodeMap c) as [v|].
      * destruct (length (dbuf ++ [v]) =? 4)%nat.
        -- destruct (IH (S si) [] Hsp) as [e ->]. by eexists.
        -- by apply IH.
      * destruct (Base64.is_newline c); [by apply IH|].
        destruct (Ascii.eqb c Base64.padChar); [|by eexists].
        by apply padding_space.
Qed.

(** A transaction whose text contains a space (and that is not a validator
    transaction) is answered with a decoding error by [DeliverTx], which
    leaves the application as it was. *)
Lemma DeliverTx_space {ext : Collaborators} (tx : string) (app : DIDApplication) :
  isValidatorTx tx = false ->
  Strings.contains tx " " = true ->
  ∃ e, DeliverTx tx app
       = (app, ReturnDeliverTxLog code.DecodingError (Base64.Error e) "").
Proof.
  intros Hval Hsp. unfold DeliverTx, Base64.DecodeString. rewrite Hval.
  destruct (decode_space tx 0 [] Hsp) as [e ->]. by exists e.
Qed.

(** C9: [CheckTx] turns every space of the transaction text into ['+']
    before decoding, [DeliverTx] decodes the text as it is.  Hence
    [DeliverTx] answers every transaction whose text contains a space with a
    decoding error, while [CheckTx] accepts some of them: the text
    ["YXxifGN8ZHx "] is accepted by [CheckTx] (it reads it as
    ["YXxifGN8ZHx+"], the base64 text of ["a|b|c|d|~"]) and rejected by
    [DeliverTx] with a decoding error. *)
Theorem CheckTx_accepts_DeliverTx_rejects {ext : Collaborators} (app : DIDApplication) :
  isValidatorTx Sample.tx_spaced = false ->
  (∀ tx, isValidatorTx tx = false -> Strings.contains tx " " = true ->
     ∃ e, DeliverTx tx app
          = (app, ReturnDeliverTxLog code.DecodingError (Base64.Error e) ""))
  ∧ Strings.contains Sample.tx_spaced " " = true
  ∧ Base64.DecodeString (Strings.Replace Sample.tx_spaced " " "+") = inl "a|b|c|d|~"
  ∧ CheckTx Sample.tx_spaced app = (app, ReturnCheckTx true)
  ∧ DeliverTx Sample.tx_spaced app
    = (app, ReturnDeliverTxLog code.DecodingError
              "illegal base64 data at input byte 11" "").
Proof.
  intros Hval. split; [|split; [|split; [|split]]].
  - intros tx Htx Hsp. by apply DeliverTx_space.
  - reflexivity.
  - vm_compute. reflexivity.
  - unfold CheckTx. rewrite Hval. reflexivity.
  - unfold DeliverTx. rewrite Hval. reflexivity.
Qed.

Lemma CheckTx_accepts_DeliverTx_rejects_witness :
  accepted (CheckTx (ext := Sample.collaborators) Sample.tx_spaced Sample.fresh).2 = true
  ∧ Code (DeliverTx (ext := Sample.collaborators) Sample.tx_spaced Sample.fresh).2
    = code.DecodingError.
Proof.
  destruct (CheckTx_accepts_DeliverTx_rejects (ext := Sample.collaborators)
              Sample.fresh eq_refl) as (_ & _ & _ & Hcheck & Hdeliver).
  rewrite Hcheck, Hdeliver. split; reflexivity.
Defined.

(** ** The persisted state record *)

(** C8: [Commit] persists the state record before it clears the tracker.
    The bytes under the reserved key are the encoding of a record whose
    [uncommit_keys] field is the whole tracker of the block just committed,
    while the tracker of the running application is empty; when the codec
    reads its own output back, [loadState] on the committed tree restores
    that tracker, which is non-empty whenever the block tracked a key. *)
Theorem Commit_persists_tracker {json : StateCodec} (app : DIDApplication) :
  let st := state app in
  let st' := state (Commit app).1 in
  let record := {| StateJSON.size := Size st';
                   StateJSON.height := Height st';
                   StateJSON.app_hash := AppHash st';
                   StateJSON.uncommit_keys := UncommitKeys st;
                   StateJSON.commit_str := CommitStr st' |} in
  json_Marshal record ≠ "" ->
  json_Unmarshal (json_Marshal record) = Some record ->
  db st' !! stateKey = Some (json_Marshal record)
  ∧ UncommitKeys st' = []
  ∧ ∃ loaded, loadState (db st') = Some loaded
              ∧ UncommitKeys loaded = UncommitKeys st
              ∧ (UncommitKeys st ≠ [] -> UncommitKeys loaded ≠ UncommitKeys st').
Proof.
  intros st st' record Hne Hround.
  assert (Hget : db st' !! stateKey = Some (json_Marshal record)).
  { subst st' record. unfold Commit, saveState. simpl. apply lookup_insert_eq. }
  split; [exact Hget | split; [done|]].
  unfold loadState. rewrite Hget. simpl.
  rewrite decide_True.
  - rewrite Hround. simpl. eexists. split; [reflexivity|]. split; [done|].
    simpl. intros Hkeys Heq. apply Hkeys. rewrite Heq. done.
  - destruct (json_Marshal record); [done | simpl; lia].
Qed.

(** After [set("A","1")], [set("B","2")] and [Commit], the tracker of the
    application is empty and the record under the reserved key still lists
    both keys; loading it restores them. *)
Lemma Commit_persists_tracker_witness :
  let app' := (Commit (json := Sample.codec) Sample.stored_AB).1 in
  UncommitKeys (state app') = []
  ∧ ∃ loaded, loadState (json := Sample.codec) (db (state app')) = Some loaded
              ∧ UncommitKeys loaded = ["A"; "B"].
Proof.
  intros app'.
  destruct (Commit_persists_tracker (json := Sample.codec) Sample.stored_AB)
    as (_ & Hnil & loaded & Hload & Hkeys & _).
  - vm_compute. discriminate.
  - vm_compute. reflexivity.
  - split; [exact Hnil|]. exists loaded. split; [exact Hload | exact Hkeys].
Defined.

(** ** signData *)

(** C10: [signData] always returns a response.  When the response is not
    [OK] (it is then one of the six error codes of the handler) the
    application is exactly as before the call: no [SetStateDB] has happened.
    The two [SetStateDB] calls, first of the request and then of the signed
    data, happen on the [OK] path only. *)
Theorem signData_atomic {json_as : ASCodec} (param nodeID : string)
    (app : DIDApplication) :
  ∃ res app',
    signData param nodeID app = (app', Done res)
    ∧ (Code res ≠ code.OK ->
       app' = app
       ∧ Code res ∈ [code.UnmarshalError; code.RequestIDNotFound;
                     code.RequestIsClosed; code.RequestIsTimedOut;
                     code.NodeIDIsNotExistInASList; code.MarshalError])
    ∧ (Code res = code.OK ->
       ∃ requestKey requestJSON signDataKey signDataJSON,
         app' = (SetStateDB signDataKey signDataJSON
                   (SetStateDB requestKey requestJSON app).1).1).
Proof.
  assert (Herr : ∀ c log,
            c ∈ [code.UnmarshalError; code.RequestIDNotFound;
                 code.RequestIsClosed; code.RequestIsTimedOut;
                 code.NodeIDIsNotExistInASList; code.MarshalError] ->
            ∃ res app',
              (app, Done (ReturnDeliverTxLog c log "")) = (app', Done res)
              ∧ (Code res ≠ code.OK ->
                 app' = app
                 ∧ Code res ∈ [code.UnmarshalError; code.RequestIDNotFound;
                               code.RequestIsClosed; code.RequestIsTimedOut;
                               code.NodeIDIsNotExistInASList; code.MarshalError])
              ∧ (Code res = code.OK ->
                 ∃ requestKey requestJSON signDataKey signDataJSON,
                   app' = (SetStateDB signDataKey signDataJSON
                             (SetStateDB requestKey requestJSON app).1).1)).
  { intros c log Hc. eexists _, _. split; [reflexivity|]. simpl. split; [done|].
    intros ->. exfalso. revert Hc. rewrite !elem_of_cons, elem_of_nil.
    intros [?|[?|[?|[?|[?|[?|[]]]]]]]; discriminate. }
  unfold signData.
  destruct (Unmarshal_SignDataParam param) as [signData|err].
  2: { apply Herr. repeat constructor. }
  unfold_M. simpl.
  destruct (db (state app) !! prefixKey _) as [requestJSON|].
  2: { apply Herr. repeat constructor. }
  destruct (Unmarshal_Request requestJSON) as [request|err].
  2: { apply Herr. repeat constructor. }
  destruct (IsClosed request). { apply Herr. repeat constructor. }
  destruct (IsTimedOut request). { apply Herr. repeat constructor. }
  destruct (negb _). { apply Herr. repeat constructor. }
  destruct (Marshal_SignDataParam signData) as [signDataJSON|err].
  2: { apply Herr. repeat constructor. }
  destruct (Marshal_Request _) as [requestJSON'|err].
  2: { apply Herr. repeat constructor. }
  eexists _, _. split; [reflexivity|]. simpl. split; [done|].
  intros _.
  by exists ("Request" +:+ "|" +:+ SignData_RequestID signData), requestJSON',
            ("SignData" +:+ "|" +:+ SignData_Signature signData), signDataJSON.
Qed.

(** ** Determinism *)



(** ** signData on a store that holds a request *)

Example signData_ok :
  let r := signData (json_as := Sample.as_codec) "svc,r1,sig" "as1" Sample.with_request in
  r.2 = Done (ReturnDeliverTxLog code.OK "success" "r1")
  ∧ UncommitKeys (state r.1) = ["Request|r1"; "Request|r1"; "SignData|sig"]
  ∧ Size (state r.1) = 3
  ∧ db (state r.1) !! prefixKey "Request|r1" = Some "r1;false;false;svc:as1,as2:as1"
  ∧ db (state r.1) !! prefixKey "SignData|sig" = Some "svc,r1,sig".
Proof. vm_compute. repeat split; reflexivity. Qed.

Example signData_unknown_node :
  signData (json_as := Sample.as_codec) "svc,r1,sig" "as9" Sample.with_request
  = (Sample.with_request,
     Done (ReturnDeliverTxLog code.NodeIDIsNotExistInASList
             "Node ID is not exist in AS list" "")).
Proof. vm_compute. reflexivity. Qed.

Example signData_unknown_request :
  signData (json_as := Sample.as_codec) "svc,r2,sig" "as1" Sample.with_request
  = (Sample.with_request,
     Done (ReturnDeliverTxLog code.RequestIDNotFound "Request ID not found" "")).
Proof. vm_compute. reflexivity. Qed.

(** An empty AS list admits every node; a hit in one data request of the
    service is kept while the later ones are scanned. *)
Example nodeID_exists_cases :
  let dr s l := {| ServiceID := s; As := l; AnsweredAsIdList := [] |} in
  nodeID_exists "svc" "as1" [dr "svc" []] false = true
  ∧ nodeID_exists "svc" "as1" [dr "svc" ["as1"]; dr "svc" ["as2"]] false = true
  ∧ nodeID_exists "svc" "as1" [dr "svc" ["as2"]; dr "other" ["as1"]] false = false
  ∧ nodeID_exists "svc" "as1" [] false = false.
Proof. vm_compute. repeat split; reflexivity. Qed.

(** ** Further properties of the engine *)

(** A fresh application: [loadState] on an empty tree reads no record. *)
Lemma NewDIDApplication_empty {json : StateCodec} :
  NewDIDApplication ∅ = Some Sample.fresh.
Proof. reflexivity. Qed.

(** The store operations keep the application hash and the commit string. *)
Lemma SetStateDB_hash (key value : string) (app : DIDApplication) :
  AppHash (state (SetStateDB key value app).1) = AppHash (state app)
  ∧ CommitStr (state (SetStateDB key value app).1) = CommitStr (state app).
Proof. done. Qed.

Lemma DeleteStateDB_hash (key : string) (app : DIDApplication) :
  AppHash (state (DeleteStateDB key app).1) = AppHash (state app)
  ∧ CommitStr (state (DeleteStateDB key app).1) = CommitStr (state app).
Proof. done. Qed.

(** Every key [SetStateDB] writes is under the namespace prefix, so the
    reserved state record is never overwritten by it, whatever the key
    (the key ["stateKey"] included). *)
Theorem SetStateDB_keeps_state_record (key value : string) (app : DIDApplication) :
  db (state (SetStateDB key value app).1) !! stateKey = db (state app) !! stateKey
  ∧ ∃ suffix, prefixKey key = kvPairPrefixKey +:+ suffix ∧ prefixKey key ≠ stateKey.
Proof.
  split.
  - unfold SetStateDB, modify. simpl.
    apply lookup_insert_ne, prefixKey_not_stateKey.
  - exists key. split; [done | apply prefixKey_not_stateKey].
Qed.

(** [DeleteStateDB] removes the entry under the prefixed key and decrements
    [Size]; the tracker keeps the key if it was stored in this block. *)
Theorem DeleteStateDB_effect (key : string) (app : DIDApplication) :
  Int64.min < Size (state app) <= Int64.max ->
  let st := state app in
  DeleteStateDB key app =
    ({| state := {| db := delete (prefixKey key) (db st);
                    Size := Size st - 1;
                    Height := Height st;
                    AppHash := AppHash st;
                    UncommitKeys := UncommitKeys st;
                    CommitStr := CommitStr st |};
        ValUpdates := ValUpdates app;
        Version := Version app |}, Done tt).
Proof.
  intros Hsize st. unfold DeleteStateDB, modify. subst st.
  replace (Int64.decr (Size (state app))) with (Size (state app) - 1); [done|].
  unfold Int64.decr, Int64.wrap, Int64.min, Int64.max in *.
  rewrite Z.mod_small; lia.
Qed.

Lemma DeleteStateDB_effect_witness :
  let r := DeleteStateDB "A" Sample.stored_A in
  db (state r.1) !! prefixKey "A" = None
  ∧ Size (state r.1) = 0
  ∧ UncommitKeys (state r.1) = ["A"].
Proof.
  intros r. subst r. rewrite (DeleteStateDB_effect "A" Sample.stored_A).
  - vm_compute. done.
  - vm_compute. split; congruence.
Defined.

(** A transaction whose text is not base64 is answered with a decoding
    error that carries the text of the decoder's error, and changes
    nothing. *)
Theorem DeliverTx_decoding_error {ext : Collaborators} (tx : string)
    (err : Base64.error) (app : DIDApplication) :
  isValidatorTx tx = false ->
  Base64.DecodeString tx = inr err ->
  DeliverTx tx app
  = (app, ReturnDeliverTxLog code.DecodingError (Base64.Error err) "").
Proof. intros Hval Hdec. unfold DeliverTx. by rewrite Hval, Hdec. Qed.

Lemma DeliverTx_decoding_error_witness :
  DeliverTx (ext := Sample.collaborators) "not base64!" Sample.fresh
  = (Sample.fresh,
     ReturnDeliverTxLog code.DecodingError "illegal base64 data at input byte 3" "").
Proof.
  apply (DeliverTx_decoding_error (ext := Sample.collaborators)
           "not base64!" (Base64.CorruptInputError 3) Sample.fresh); reflexivity.
Defined.

(** The panic boundary of [DeliverTx]: when the router panics, the response
    is the wrong-transaction-format one and the application is as the router
    left it, so what the handler stored before the panic stays. *)
Theorem DeliverTx_recovers {ext : Collaborators} (tx txString : string)
    (method param nonce signature nodeID : string) (rest : list string)
    (app app' : DIDApplication) :
  isValidatorTx tx = false ->
  Base64.DecodeString tx = inl txString ->
  Strings.Split txString "|" = method :: param :: nonce :: signature :: nodeID :: rest ->
  method ≠ "" ->
  DeliverTxRouter method param nonce signature nodeID app = (app', Panicked) ->
  DeliverTx tx app
  = (app', ReturnDeliverTxLog code.WrongTransactionFormat "wrong transaction format" "").
Proof.
  intros Hval Hdec Hsplit Hmethod Hpanic.
  rewrite (DeliverTx_fields tx txString _ _ _ _ _ _ app Hval Hdec Hsplit).
  rewrite decide_True by done.
  unfold recover. by rewrite Hpanic.
Qed.

Lemma DeliverTx_recovers_witness :
  DeliverTx (ext := Sample.faulty) Sample.tx_set_A Sample.fresh
  = (Sample.stored_A,
     ReturnDeliverTxLog code.WrongTransactionFormat "wrong transaction format" "").
Proof.
  apply (DeliverTx_recovers (ext := Sample.faulty) Sample.tx_set_A
           "Set|A|1|sig|node1" "Set" "A" "1" "sig" "node1" [] Sample.fresh Sample.stored_A);
    try reflexivity.
  discriminate.
Defined.

(** A [Commit] that follows a [Commit] with no store operation in between
    returns the same application hash and still advances the height. *)
Theorem Commit_twice {json : StateCodec} (app : DIDApplication) :
  Int64.min <= Height (state (Commit app).1) < Int64.max ->
  let app' := (Commit app).1 in
  Data (Commit app').2 = Data (Commit app).2
  ∧ Height (state (Commit app').1) = Height (state app') + 1
  ∧ UncommitKeys (state (Commit app').1) = [].
Proof.
  intros Hh app'.
  rewrite (Commit_unfold app'). cbv zeta. simpl.
  unfold next_commitStr at 1. rewrite decide_True by done.
  split; [done | split; [|done]].
  by apply Int64_incr_in_range.
Qed.

Lemma Commit_twice_witness :
  let app' := (Commit (json := Sample.codec) Sample.stored_AB).1 in
  Data (Commit (json := Sample.codec) app').2
  = "b7e9e16ed1eaacb04679c1173b0982f87ab5dc3f05c87ce1aacfdf3443955830"
  ∧ Height (state (Commit (json := Sample.codec) app').1) = 2.
Proof.
  intros app'.
  destruct (Commit_twice (json := Sample.codec) Sample.stored_AB) as (Hdata & Hheight & _).
  - vm_compute. split; congruence.
  - fold app' in Hdata, Hheight. rewrite Hdata, Hheight. clear Hdata Hheight.
    vm_compute. split; reflexivity.
Defined.

(** ** The store *)

(** Reading after writing: a stored value is read back under its key, a
    deleted key is absent, and neither operation changes what is read under
    any other key (the prefix is injective). *)
Theorem store_read_your_writes (key key' value : string) (app : DIDApplication) :
  db (state (SetStateDB key value app).1) !! prefixKey key'
  = (if decide (key' = key) then Some value else db (state app) !! prefixKey key')
  ∧ db (state (DeleteStateDB key app).1) !! prefixKey key'
    = (if decide (key' = key) then None else db (state app) !! prefixKey key').
Proof.
  unfold SetStateDB, DeleteStateDB, modify. simpl. split.
  - case_decide as Hk.
    + subst. apply lookup_insert_eq.
    + apply lookup_insert_ne. intros Heq. apply Hk. symmetry. by apply prefixKey_inj.
  - case_decide as Hk.
    + subst. apply lookup_delete_eq.
    + apply lookup_delete_ne. intros Heq. apply Hk. symmetry. by apply prefixKey_inj.
Qed.

(** [Size] counts calls, not entries: storing under a key that already
    holds a value leaves the number of entries as it is and still increments
    [Size]; deleting a key that holds no value leaves the store as it is and
    still decrements [Size]. *)
Theorem Size_counts_calls (key value old : string) (app : DIDApplication) :
  Int64.min < Size (state app) < Int64.max ->
  (db (state app) !! prefixKey key = Some old ->
   size (db (state (SetStateDB key value app).1)) = size (db (state app))
   ∧ Size (state (SetStateDB key value app).1) = Size (state app) + 1)
  ∧ (db (state app) !! prefixKey key = None ->
     db (state (DeleteStateDB key app).1) = db (state app)
     ∧ Size (state (DeleteStateDB key app).1) = Size (state app) - 1).
Proof.
  intros Hsize. unfold SetStateDB, DeleteStateDB, modify. simpl. split.
  - intros Hold. split.
    + apply map_size_insert_Some. by exists old.
    + apply Int64_incr_in_range. lia.
  - intros Hnone. split.
    + by apply delete_id.
    + unfold Int64.decr, Int64.wrap, Int64.min, Int64.max in *.
      rewrite Z.mod_small; lia.
Qed.

Lemma Size_counts_calls_witness :
  size (db (state (SetStateDB "A" "2" Sample.stored_A).1)) = 1%nat
  ∧ Size (state (SetStateDB "A" "2" Sample.stored_A).1) = 2
  ∧ Size (state (DeleteStateDB "B" Sample.stored_A).1) = 0
  ∧ size (db (state (DeleteStateDB "B" Sample.stored_A).1)) = 1%nat.
Proof.
  assert (Hrange : Int64.min < Size (state Sample.stored_A) < Int64.max).
  { vm_compute. split; reflexivity. }
  destruct (Size_counts_calls "A" "2" "1" Sample.stored_A Hrange) as [Hset _].
  destruct (Size_counts_calls "B" "2" "1" Sample.stored_A Hrange) as [_ Hdel].
  destruct (Hset eq_refl) as [Hentries Hsize].
  destruct (Hdel eq_refl) as [Hdb Hsize'].
  rewrite Hentries, Hsize, Hsize', Hdb. vm_compute. repeat split; reflexivity.
Defined.

Lemma tracked_cons (op : StoreOp) (ops : list StoreOp) :
  tracked (op :: ops) = tracked [op] ++ tracked ops.
Proof. unfold tracked. simpl. destruct op; [case_decide|]; done. Qed.

Lemma store_op_effect (op : StoreOp) (app : DIDApplication) :
  Int64.min < Size (state app) < Int64.max ->
  ∃ app', store_op op app = (app', Done tt)
    ∧ Size (state app') = Size (state app) + net_size [op]
    ∧ UncommitKeys (state app') = UncommitKeys (state app) ++ tracked [op]
    ∧ Height (state app') = Height (state app)
    ∧ AppHash (state app') = AppHash (state app)
    ∧ CommitStr (state app') = CommitStr (state app)
    ∧ ValUpdates app' = ValUpdates app
    ∧ Version app' = Version app.
Proof.
  intros Hsize. destruct op as [key value|key]; simpl.
  - eexists. split; [reflexivity|]. simpl. split; [|split; [|done]].
    + rewrite Int64_incr_in_range; lia.
    + case_decide; [done | by rewrite app_nil_r].
  - eexists. split; [reflexivity|]. simpl. split; [|split; [|done]].
    + unfold Int64.decr, Int64.wrap, Int64.min, Int64.max in *.
      rewrite Z.mod_small; lia.
    + by rewrite app_nil_r.
Qed.

(** A sequence of store operations, as the body of a handler issues them:
    the tracker grows by the keys of the stores, in order and with their
    repetitions (the reserved key apart); [Size] moves by the number of
    stores minus the number of deletes; the height, the application hash,
    the commit string and the pending validator updates stay. *)
Theorem store_ops_effect (ops : list StoreOp) (app : DIDApplication) :
  Int64.min + Z.of_nat (length ops) < Size (state app)
    < Int64.max - Z.of_nat (length ops) ->
  ∃ app', store_ops ops app = (app', Done tt)
    ∧ Size (state app') = Size (state app) + net_size ops
    ∧ UncommitKeys (state app') = UncommitKeys (state app) ++ tracked ops
    ∧ Height (state app') = Height (state app)
    ∧ AppHash (state app') = AppHash (state app)
    ∧ CommitStr (state app') = CommitStr (state app)
    ∧ ValUpdates app' = ValUpdates app
    ∧ Version app' = Version app.
Proof.
  revert app. induction ops as [|op ops IH]; intros app Hsize.
  - exists app. simpl. rewrite app_nil_r, Z.add_0_r. done.
  - simpl length in Hsize.
    destruct (store_op_effect op app) as (app1 & Hop & Hs1 & Hk1 & Hh1 & Ha1 & Hc1 & Hv1 & Hver1);
      [lia|].
    assert (Hnet : -1 <= net_size [op] <= 1) by (destruct op; simpl; lia).
    destruct (IH app1) as (app2 & Hops & Hs2 & Hk2 & Hh2 & Ha2 & Hc2 & Hv2 & Hver2);
      [lia|].
    exists app2. split.
    + change (store_ops (op :: ops)) with (_ ← store_op op; store_ops ops).
      unfold mbind, M_bind. by rewrite Hop.
    + rewrite Hs2, Hk2, Hh2, Ha2, Hc2, Hv2, Hver2, Hs1, Hk1, Hh1, Ha1, Hc1, Hv1, Hver1.
      rewrite (tracked_cons op ops), app_assoc.
      replace (net_size (op :: ops)) with (net_size [op] + net_size ops)
        by (destruct op; simpl; lia).
      repeat split; lia.
Qed.

Lemma store_ops_effect_witness :
  let ops := [OpSet "A" "1"; OpSet "stateKey" "x"; OpDelete "A"; OpSet "A" "2"] in
  ∃ app', store_ops ops Sample.fresh = (app', Done tt)
    ∧ Size (state app') = 2
    ∧ UncommitKeys (state app') = ["A"; "A"].
Proof.
  intros ops.
  destruct (store_ops_effect ops Sample.fresh) as (app' & Hops & Hsize & Hkeys & _).
  - vm_compute. split; reflexivity.
  - exists app'. split; [exact Hops|]. rewrite Hsize, Hkeys. split; reflexivity.
Defined.

(** ** What the commit hash covers *)

Lemma accumulator_ext (tree1 tree2 : gmap string string) (keys : list string) :
  (∀ key, key ∈ keys -> tree1 !! prefixKey key = tree2 !! prefixKey key) ->
  accumulator tree1 keys = accumulator tree2 keys.
Proof.
  induction keys as [|key keys IH]; intros Hagree; simpl; [done|].
  rewrite (Hagree key) by apply list_elem_of_here.
  rewrite IH; [done|]. intros k Hk. by apply Hagree, list_elem_of_further.
Qed.

Lemma accumulator_app (tree : gmap string string) (keys1 keys2 : list string) :
  accumulator tree (keys1 ++ keys2)
  = accumulator tree keys1 +:+ accumulator tree keys2.
Proof.
  induction keys1 as [|key keys1 IH]; simpl; [done|].
  rewrite IH. destruct (tree !! prefixKey key); [|done].
  by rewrite !append_assoc.
Qed.

Lemma Commit_Data {json : StateCodec} (app : DIDApplication) :
  Data (Commit app).2
  = next_commitStr (CommitStr (state app))
      (accumulator (db (state app)) (UncommitKeys (state app))).
Proof. rewrite (Commit_unfold app). reflexivity. Qed.

(** The hash [Commit] returns is determined by the commit string, the
    tracker and the current values of the tracked keys: two applications
    that agree on these return the same hash, however else their stores
    differ.  In particular a deletion of an untracked key is not reflected
    in the hash. *)
Theorem Commit_hash_covers_tracked_only {json : StateCodec} (app1 app2 : DIDApplication) :
  CommitStr (state app1) = CommitStr (state app2) ->
  UncommitKeys (state app1) = UncommitKeys (state app2) ->
  (∀ key, key ∈ UncommitKeys (state app1) ->
          db (state app1) !! prefixKey key = db (state app2) !! prefixKey key) ->
  Data (Commit app1).2 = Data (Commit app2).2.
Proof.
  intros Hstr Hkeys Hvalues. rewrite !Commit_Data, <- Hstr, <- Hkeys.
  f_equal. by apply accumulator_ext.
Qed.

(** After [set("A","1")] and a [Commit], deleting ["A"] changes the store
    but not the hash of the next [Commit]. *)
Lemma Commit_hash_covers_tracked_only_witness :
  let committed := (Commit (json := Sample.codec) Sample.stored_A).1 in
  let deleted := (DeleteStateDB "A" committed).1 in
  db (state committed) !! prefixKey "A" = Some "1"
  ∧ db (state deleted) !! prefixKey "A" = None
  ∧ Data (Commit (json := Sample.codec) committed).2
    = Data (Commit (json := Sample.codec) deleted).2.
Proof.
  intros committed deleted. split; [reflexivity | split; [reflexivity|]].
  apply (Commit_hash_covers_tracked_only (json := Sample.codec) committed deleted).
  - reflexivity.
  - reflexivity.
  - intros key Hkey. vm_compute in Hkey. by apply elem_of_nil in Hkey.
Defined.

(** A key stored twice in a block is hashed twice, both times with the
    value it holds at commit time: the value of the first store leaves no
    trace in the hash. *)
Theorem Commit_after_overwrite {json : StateCodec} (key value1 value2 : string)
    (app : DIDApplication) :
  UncommitKeys (state app) = [] ->
  key ≠ "stateKey" ->
  let app' := (SetStateDB key value2 (SetStateDB key value1 app).1).1 in
  UncommitKeys (state app') = [key; key]
  ∧ Data (Commit app').2
    = next_commitStr (CommitStr (state app))
        (key +:+ value2 +:+ key +:+ value2).
Proof.
  intros Hnil Hkey app'.
  assert (Hkeys : UncommitKeys (state app') = [key; key]).
  { subst app'. unfold SetStateDB, modify. simpl.
    rewrite !decide_True by done. by rewrite Hnil. }
  split; [exact Hkeys|].
  assert (Hget : db (state app') !! prefixKey key = Some value2).
  { subst app'. unfold SetStateDB, modify. simpl. apply lookup_insert_eq. }
  rewrite Commit_Data, Hkeys. unfold accumulator. cbn [foldr].
  rewrite Hget, append_nil_r. reflexivity.
Qed.

Lemma Commit_after_overwrite_witness :
  Data (Commit (json := Sample.codec)
          (SetStateDB "A" "2" (SetStateDB "A" "1" Sample.fresh).1).1).2
  = "035642feff7da727f5b860f539282bd7fa769bff96d5f1b0db4be84ac5706fda".
Proof.
  destruct (Commit_after_overwrite (json := Sample.codec) "A" "1" "2" Sample.fresh)
    as [_ Hdata]; [reflexivity | discriminate |].
  rewrite Hdata. vm_compute. reflexivity.
Defined.

(** ** The form of the application hash *)

Lemma EncodeToString_length (src : list Z) :
  String.length (Hex.EncodeToString src) = (2 * length src)%nat.
Proof. induction src as [|b src IH]; simpl; [done | rewrite IH; lia]. Qed.

Lemma get_contains (s : string) (n : nat) (c : ascii) :
  String.get n s = Some c -> Strings.contains s c = true.
Proof.
  revert n. induction s as [|d s IH]; intros n; simpl; [done|].
  destruct n as [|n].
  - intros [= ->]. by rewrite Ascii.eqb_refl.
  - intros Hget. rewrite (IH n Hget). apply orb_true_r.
Qed.

Lemma digit_hex (n : Z) : Strings.contains Hex.hextable (Hex.digit n) = true.
Proof.
  unfold Hex.digit.
  destruct (String.get (Z.to_nat n) Hex.hextable) as [c|] eqn:Hget.
  - by apply get_contains with (Z.to_nat n).
  - reflexivity.
Qed.

Lemma EncodeToString_hex (src : list Z) :
  all_in Hex.hextable (Hex.EncodeToString src) = true.
Proof.
  induction src as [|b src IH]; [done|].
  change (Hex.EncodeToString (b :: src))
    with (String (Hex.digit (Z.shiftr b 4))
            (String (Hex.digit (Z.land b 15)) (Hex.EncodeToString src))).
  cbn [all_in]. by rewrite !digit_hex, IH.
Qed.

Lemma blocks_length (n : nat) (h bs : list Z) :
  length h = 8%nat -> length (Sha256.blocks n h bs) = 8%nat.
Proof.
  revert h bs. induction n as [|n IH]; intros h bs Hh; simpl; [done|].
  apply IH. unfold Sha256.block. rewrite length_zip_with, Hh. reflexivity.
Qed.

Lemma Sum_length (msg : string) : length (Sha256.Sum msg) = 32%nat.
Proof.
  unfold Sha256.Sum.
  pose proof (blocks_length
                (length (Sha256.pad (Sha256.bytes_of_string msg)) / 64)
                Sha256.init (Sha256.pad (Sha256.bytes_of_string msg)) eq_refl) as Hlen.
  destruct (Sha256.blocks _ _ _) as [|a [|b [|c [|d [|e [|f [|g [|h [|? ?]]]]]]]]];
    try discriminate Hlen.
  reflexivity.
Qed.

(** When the block changed a tracked key that still holds a value (a
    non-empty accumulator), the hash [Commit] returns is 64 lower-case
    hexadecimal digits; so it differs from the previous commit string
    whenever that one has another length, as the initial empty one has. *)
Theorem Commit_appHash_format {json : StateCodec} (app : DIDApplication) :
  accumulator (db (state app)) (UncommitKeys (state app)) ≠ "" ->
  let appHash := Data (Commit app).2 in
  String.length appHash = 64%nat
  ∧ all_in Hex.hextable appHash = true
  ∧ (String.length (CommitStr (state app)) ≠ 64%nat -> appHash ≠ CommitStr (state app)).
Proof.
  intros Hacc appHash. subst appHash. rewrite Commit_Data.
  unfold next_commitStr. rewrite decide_False by done.
  assert (Hlen : String.length
                   (Hex.EncodeToString
                      (Sha256.Sum (CommitStr (state app)
                                   +:+ accumulator (db (state app))
                                         (UncommitKeys (state app))))) = 64%nat).
  { by rewrite EncodeToString_length, Sum_length. }
  split; [exact Hlen | split; [apply EncodeToString_hex|]].
  intros Hne Heq. apply Hne. by rewrite <- Heq.
Qed.

Lemma Commit_appHash_format_witness :
  String.length (Data (Commit (json := Sample.codec) Sample.stored_AB).2) = 64%nat
  ∧ Data (Commit (json := Sample.codec) Sample.stored_AB).2
    ≠ CommitStr (state Sample.stored_AB).
Proof.
  destruct (Commit_appHash_format (json := Sample.codec) Sample.stored_AB)
    as (Hlen & _ & Hne).
  - vm_compute. discriminate.
  - split; [exact Hlen | apply Hne; vm_compute; discriminate].
Defined.

(** ** The state record across a restart *)

(** [saveState] then [loadState]: when the codec reads back the text it
    wrote for the state (a non-empty text), every exported field of the
    state is restored, over the tree that now holds the record.  A tree with
    no record, or with an empty one, gives the zero state and never a
    panic. *)
Theorem saveState_loadState {json : StateCodec} (st : State) (tree : gmap string string) :
  json_Marshal (StateJSON.of_State st) ≠ "" ->
  json_Unmarshal (json_Marshal (StateJSON.of_State st)) = Some (StateJSON.of_State st) ->
  loadState (saveState st)
  = Some {| db := saveState st; Size := Size st; Height := Height st;
            AppHash := AppHash st; UncommitKeys := UncommitKeys st;
            CommitStr := CommitStr st |}
  ∧ (tree !! stateKey = None ∨ tree !! stateKey = Some "" ->
     loadState tree
     = Some {| db := tree; Size := 0; Height := 0; AppHash := "";
               UncommitKeys := []; CommitStr := "" |}).
Proof.
  intros Hne Hround. split.
  - unfold loadState, saveState. rewrite lookup_insert_eq. simpl.
    rewrite decide_True.
    + rewrite Hround. reflexivity.
    + destruct (json_Marshal (StateJSON.of_State st)); [done | simpl; lia].
  - intros [Hnone | Hempty]; unfold loadState.
    + rewrite Hnone. reflexivity.
    + rewrite Hempty. reflexivity.
Qed.

Lemma saveState_loadState_witness :
  let st := state Sample.stored_AB in
  loadState (json := Sample.codec) (saveState (json := Sample.codec) st)
  = Some {| db := saveState (json := Sample.codec) st; Size := 2; Height := 0;
            AppHash := ""; UncommitKeys := ["A"; "B"]; CommitStr := "" |}.
Proof.
  intros st.
  apply (saveState_loadState (json := Sample.codec) st ∅).
  - vm_compute. discriminate.
  - vm_compute. reflexivity.
Defined.

Lemma accumulator_saved (tree : gmap string string) (record : string)
    (keys : list string) :
  accumulator (<[stateKey := record]> tree) keys = accumulator tree keys.
Proof.
  apply accumulator_ext. intros key _.
  apply lookup_insert_ne. intros Heq. by apply (prefixKey_not_stateKey key).
Qed.

(** A restart after [Commit]: the application loaded from the committed
    tree has the committed size, height, hash and commit string, but also
    the tracker of the block just committed.  At the next [Commit] with no
    transaction in between, the application that kept running returns the
    hash it returned before, while the restarted one folds the accumulator
    of the committed block into the hash a second time. *)
Theorem restart_rehashes {json : StateCodec} (app : DIDApplication) :
  let st := state app in
  let st' := state (Commit app).1 in
  let record := {| StateJSON.size := Size st';
                   StateJSON.height := Height st';
                   StateJSON.app_hash := AppHash st';
                   StateJSON.uncommit_keys := UncommitKeys st;
                   StateJSON.commit_str := CommitStr st' |} in
  json_Marshal record ≠ "" ->
  json_Unmarshal (json_Marshal record) = Some record ->
  ∃ restarted,
    NewDIDApplication (db st') = Some restarted
    ∧ Size (state restarted) = Size st'
    ∧ Height (state restarted) = Height st'
    ∧ AppHash (state restarted) = AppHash st'
    ∧ Data (Commit (Commit app).1).2 = Data (Commit app).2
    ∧ Data (Commit restarted).2
      = next_commitStr (Data (Commit app).2) (accumulator (db st) (UncommitKeys st)).
Proof.
  intros st st' record Hne Hround.
  assert (Hget : db st' !! stateKey = Some (json_Marshal record)).
  { subst st' record. unfold Commit, saveState. simpl. apply lookup_insert_eq. }
  assert (Hload : loadState (db st')
                  = Some (StateJSON.to_State (db st') record)).
  { unfold loadState. rewrite Hget. simpl. rewrite decide_True.
    - by rewrite Hround.
    - destruct (json_Marshal record); [done | simpl; lia]. }
  eexists. split.
  { unfold NewDIDApplication. rewrite Hload. reflexivity. }
  cbn [state StateJSON.to_State Size Height AppHash].
  split; [done | split; [done | split; [done | split]]].
  - rewrite (Commit_Data (Commit app).1). unfold next_commitStr.
    by rewrite decide_True.
  - rewrite Commit_Data.
    cbn [state StateJSON.to_State CommitStr UncommitKeys db record
         StateJSON.commit_str StateJSON.uncommit_keys].
    f_equal. subst st'. unfold Commit, saveState. cbn [fst state db].
    apply accumulator_saved.
Qed.

(** After [set("A","1")], [set("B","2")] and [Commit], the running
    application and the restarted one return different hashes at the next
    [Commit]. *)
Lemma restart_rehashes_witness :
  let committed := (Commit (json := Sample.codec) Sample.stored_AB).1 in
  ∃ restarted,
    NewDIDApplication (json := Sample.codec) (db (state committed)) = Some restarted
    ∧ Data (Commit (json := Sample.codec) committed).2
      = "b7e9e16ed1eaacb04679c1173b0982f87ab5dc3f05c87ce1aacfdf3443955830"
    ∧ Data (Commit (json := Sample.codec) restarted).2
      = "b296e53315450d76bbe4578630ed8f1d0ebe3be3e9c535d614e7fa555b1e536e".
Proof.
  intros committed.
  destruct (restart_rehashes (json := Sample.codec) Sample.stored_AB)
    as (restarted & Hnew & _ & _ & _ & Hrun & Hre).
  - vm_compute. discriminate.
  - vm_compute. reflexivity.
  - exists restarted. split; [exact Hnew|]. fold committed in Hrun.
    rewrite Hrun, Hre. clear. vm_compute. split; reflexivity.
Defined.

(** ** CheckTx and DeliverTx on the same transaction *)

Lemma Replace_absent (s : string) (old new : ascii) :
  Strings.contains s old = false -> Strings.Replace s old new = s.
Proof.
  induction s as [|c s IH]; simpl; [done|].
  destruct (Ascii.eqb c old); simpl; [done|]. intros Hs. by rewrite IH.
Qed.

(** On a transaction without a space the two agree: what [CheckTx]
    accepts, [DeliverTx] hands to the router, with the same first five
    fields and without a transport-format or decoding failure of its own. *)
Theorem CheckTx_accepted_is_dispatched {ext : Collaborators} (tx : string)
    (app : DIDApplication) :
  isValidatorTx tx = false ->
  Strings.contains tx " " = false ->
  accepted (CheckTx tx app).2 = true ->
  ∃ txString method param nonce signature nodeID rest,
    Base64.DecodeString tx = inl txString
    ∧ Strings.Split txString "|" = method :: param :: nonce :: signature :: nodeID :: rest
    ∧ method ≠ ""
    ∧ DeliverTx tx app
      = recover (DeliverTxRouter method param nonce signature nodeID)
          (ReturnDeliverTxLog code.WrongTransactionFormat "wrong transaction format" "")
          app.
Proof.
  intros Hval Hsp. unfold CheckTx. rewrite Hval, (Replace_absent _ _ _ Hsp).
  destruct (Base64.DecodeString tx) as [txString|err] eqn:Hdec; [|done].
  destruct (short_or_five (Strings.Split txString "|"))
    as [Hshort | (m & p & n & s & id & rest & Hsplit)].
  - unfold recover. by rewrite index_short.
  - unfold recover at 1. rewrite Hsplit, index_five.
    case_decide as Hne; [|done]. intros _.
    exists txString, m, p, n, s, id, rest.
    destruct Hne as [Hm _].
    split; [done | split; [done | split; [done|]]].
    rewrite (DeliverTx_fields tx txString m p n s id rest app Hval Hdec Hsplit).
    by rewrite decide_True.
Qed.

Lemma CheckTx_accepted_is_dispatched_witness :
  DeliverTx (ext := Sample.collaborators) Sample.tx_set_A Sample.fresh
  = (Sample.stored_A, ReturnDeliverTxLog code.OK "success" "").
Proof.
  destruct (CheckTx_accepted_is_dispatched (ext := Sample.collaborators)
              Sample.tx_set_A Sample.fresh eq_refl eq_refl eq_refl)
    as (txString & m & p & n & s & id & rest & Hdec & Hsplit & _ & Hdeliver).
  injection Hdec as <-. injection Hsplit as <- <- <- <- <- <-.
  rewrite Hdeliver. reflexivity.
Defined.

(** ** The chain of heights and hashes over a sequence of calls *)

Lemma recover_state {A} (m : M A) (fallback : A) (app : DIDApplication) :
  (recover m fallback app).1 = (m app).1.
Proof. unfold recover. by destruct (m app) as [app' [a|]]. Qed.

Lemma DeliverTx_keeps_chain {ext : Collaborators} (tx : string) (app : DIDApplication) :
  (∀ tx, keeps_chain (execValidatorTx tx)) ->
  (∀ m p n s id, keeps_chain (DeliverTxRouter m p n s id)) ->
  Height (state (DeliverTx tx app).1) = Height (state app)
  ∧ AppHash (state (DeliverTx tx app).1) = AppHash (state app)
  ∧ CommitStr (state (DeliverTx tx app).1) = CommitStr (state app).
Proof.
  intros Hval Hrouter. unfold DeliverTx. rewrite recover_state.
  destruct (isValidatorTx tx); [apply Hval|].
  destruct (Base64.DecodeString tx) as [txString|err]; [|done].
  destruct (short_or_five (Strings.Split txString "|"))
    as [Hshort | (m & p & n & s & id & rest & ->)].
  - by rewrite index_short.
  - rewrite index_five. case_decide; [apply Hrouter | done].
Qed.

Lemma commits_nonneg (calls : list Call) : 0 <= commits calls.
Proof. induction calls as [|[] calls IH]; simpl; lia. Qed.

Lemma run_cons {json : StateCodec} {ext : Collaborators} (c : Call)
    (calls : list Call) (app : DIDApplication) :
  run (c :: calls) app
  = ((run calls (handle c app).1).1,
     (handle c app).2 :: (run calls (handle c app).1).2).
Proof. reflexivity. Qed.

Lemma appHashes_cons (r : Response) (rs : list Response) :
  appHashes (r :: rs) = appHashes [r] ++ appHashes rs.
Proof. by destruct r. Qed.

Lemma default_last_cons {A} (d x : A) (l : list A) :
  default d (last (x :: l)) = default x (last l).
Proof. rewrite last_cons. by destruct (last l). Qed.

(** Over any sequence of lifecycle calls, when the router and the validator
    hook leave the height, the hash and the commit string alone (as
    handlers that only use the store operations do): the height grows by
    exactly the number of [Commit] calls, whatever [DeliverTx], [CheckTx],
    [BeginBlock] and [EndBlock] calls lie between them; the application hash
    is the one the last [Commit] returned (the initial one if there was
    none); and the hash stays the bytes of the commit string. *)
Theorem run_chain {json : StateCodec} {ext : Collaborators}
    (calls : list Call) (app : DIDApplication) :
  (∀ tx, keeps_chain (execValidatorTx tx)) ->
  (∀ m p n s id, keeps_chain (DeliverTxRouter m p n s id)) ->
  Int64.min <= Height (state app) ->
  Height (state app) + commits calls <= Int64.max ->
  let r := run calls app in
  Height (state r.1) = Height (state app) + commits calls
  ∧ AppHash (state r.1) = default (AppHash (state app)) (last (appHashes r.2))
  ∧ (AppHash (state app) = CommitStr (state app) ->
     AppHash (state r.1) = CommitStr (state r.1)).
Proof.
  intros Hval Hrouter. revert app.
  induction calls as [|c calls IH]; intros app Hmin Hmax.
  - simpl. split; [lia | done].
  - cbv zeta. rewrite run_cons. cbn [fst snd]. rewrite appHashes_cons.
    pose proof (commits_nonneg calls) as Hnn.
    assert (Hstep :
      (c ≠ CallCommit
       ∧ Height (state (handle c app).1) = Height (state app)
       ∧ AppHash (state (handle c app).1) = AppHash (state app)
       ∧ CommitStr (state (handle c app).1) = CommitStr (state app)
       ∧ appHashes [(handle c app).2] = [])
      ∨ (c = CallCommit
         ∧ Height (state (handle c app).1) = Height (state app) + 1
         ∧ AppHash (state (handle c app).1) = CommitStr (state (handle c app).1)
         ∧ appHashes [(handle c app).2] = [AppHash (state (handle c app).1)])).
    { destruct c as [|tx|tx| |]; simpl.
      - left. done.
      - left. split; [done|].
        destruct (DeliverTx_keeps_chain tx app Hval Hrouter) as (? & ? & ?). done.
      - left. rewrite CheckTx_frame. done.
      - left. done.
      - right. split; [done|]. split; [|done].
        apply Int64_incr_in_range.
        change (commits (CallCommit :: calls)) with (1 + commits calls) in Hmax. lia. }
    destruct Hstep as [(Hc & Hh & Ha & Hs & Hresp) | (Hc & Hh & Ha & Hresp)].
    + assert (Hcount : commits (c :: calls) = commits calls) by (by destruct c).
      rewrite Hcount in *.
      destruct (IH (handle c app).1) as (IHh & IHa & IHinv); [lia | lia |].
      rewrite Hresp. cbn [List.app].
      split; [by rewrite IHh, Hh | split; [by rewrite IHa, Ha|]].
      intros Hinv. apply IHinv. congruence.
    + subst c. change (commits (CallCommit :: calls)) with (1 + commits calls) in *.
      destruct (IH (handle CallCommit app).1) as (IHh & IHa & IHinv); [lia | lia |].
      rewrite Hresp. cbn [List.app].
      split; [rewrite IHh, Hh; lia | split].
      * by rewrite IHa, default_last_cons.
      * intros _. by apply IHinv.
Qed.

(** ** signData: when it answers OK, and what it then does *)

(** The loop over the data requests decides: some data request of the
    signed service has an empty AS list or lists the node. *)
Theorem nodeID_exists_iff (serviceID nodeID : string) (l : list DataRequest)
    (exist : bool) :
  nodeID_exists serviceID nodeID l exist = true
  ↔ exist = true
    ∨ ∃ dataRequest, dataRequest ∈ l
        ∧ ServiceID dataRequest = serviceID
        ∧ (As dataRequest = [] ∨ nodeID ∈ As dataRequest).
Proof.
  revert exist. induction l as [|d l IH]; intros exist; simpl.
  - split; [by left|]. intros [?|(d & Hd & _)]; [done|]. by apply elem_of_nil in Hd.
  - case_decide as Hsid.
    + case_decide as Hlen.
      * split; [|done]. intros _. right. exists d.
        split; [apply list_elem_of_here | split; [done|]]. left.
        by destruct (As d).
      * rewrite IH. split.
        -- intros [Hor | (d' & Hd' & Hs' & Has')].
           ++ apply orb_true_iff in Hor as [?|Hin]; [by left|].
              right. exists d. apply bool_decide_eq_true in Hin.
              split; [apply list_elem_of_here | split; [done | by right]].
           ++ right. exists d'. split; [by apply list_elem_of_further | done].
        -- intros [-> | (d' & Hd' & Hs' & Has')]; [by left|].
           apply elem_of_cons in Hd' as [-> | Hd'].
           ++ left. destruct Has' as [Hnil | Hin].
              ** rewrite Hnil in Hlen. done.
              ** apply orb_true_iff. right. by apply bool_decide_eq_true.
           ++ right. by exists d'.
    + rewrite IH. split.
      * intros [? | (d' & Hd' & Hrest)]; [by left|].
        right. exists d'. split; [by apply list_elem_of_further | done].
      * intros [? | (d' & Hd' & Hs' & Has')]; [by left|].
        apply elem_of_cons in Hd' as [-> | Hd']; [done|].
        right. by exists d'.
Qed.

(** [signData] either answers with an error and leaves the application as
    it is, or every check passed and it stores the answered request and the
    signed data. *)
Lemma signData_inv {json_as : ASCodec} (param nodeID : string) (app : DIDApplication) :
  (∃ c log, signData param nodeID app = (app, Done (ReturnDeliverTxLog c log ""))
            ∧ c ≠ code.OK)
  ∨ (∃ sd requestJSON request signDataJSON requestJSON',
       let requestKey := "Request" +:+ "|" +:+ SignData_RequestID sd in
       let signDataKey := "SignData" +:+ "|" +:+ SignData_Signature sd in
       Unmarshal_SignDataParam param = inl sd
       ∧ db (state app) !! prefixKey requestKey = Some requestJSON
       ∧ Unmarshal_Request requestJSON = inl request
       ∧ IsClosed request = false
       ∧ IsTimedOut request = false
       ∧ nodeID_exists (SignData_ServiceID sd) nodeID
           (DataRequestList request) false = true
       ∧ Marshal_SignDataParam sd = inl signDataJSON
       ∧ Marshal_Request (answer (SignData_ServiceID sd) nodeID request)
         = inl requestJSON'
       ∧ signData param nodeID app
         = ((SetStateDB signDataKey signDataJSON
               (SetStateDB requestKey requestJSON' app).1).1,
            Done (ReturnDeliverTxLog code.OK "success" (SignData_RequestID sd)))).
Proof.
  unfold signData.
  destruct (Unmarshal_SignDataParam param) as [sd|err] eqn:Hsd.
  2: { left. by eexists _, _. }
  unfold_M. simpl.
  destruct (db (state app) !! prefixKey _) as [requestJSON|] eqn:Hget.
  2: { left. by eexists _, _. }
  destruct (Unmarshal_Request requestJSON) as [request|err] eqn:Hreq.
  2: { left. by eexists _, _. }
  destruct (IsClosed request) eqn:Hclosed. { left. by eexists _, _. }
  destruct (IsTimedOut request) eqn:Htimed. { left. by eexists _, _. }
  destruct (nodeID_exists _ _ _ _) eqn:Hexists; simpl.
  2: { left. by eexists _, _. }
  destruct (Marshal_SignDataParam sd) as [signDataJSON|err] eqn:Hmsd.
  2: { left. by eexists _, _. }
  destruct (Marshal_Request _) as [requestJSON'|err] eqn:Hmreq.
  2: { left. by eexists _, _. }
  right. exists sd, requestJSON, request, signDataJSON, requestJSON'.
  cbv zeta. repeat (split; [done|]). reflexivity.
Qed.

Lemma signData_keeps_chain {json_as : ASCodec} (param nodeID : string) :
  keeps_chain (signData param nodeID).
Proof.
  intros app.
  destruct (signData_inv param nodeID app)
    as [(c & log & -> & _) | (sd & rj & r & sj & rj' & _ & _ & _ & _ & _ & _ & _ & _ & ->)];
    done.
Qed.

Lemma Sample_keeps_chain :
  (∀ tx, keeps_chain (execValidatorTx (Collaborators := Sample.collaborators) tx))
  ∧ (∀ m p n s id,
       keeps_chain (DeliverTxRouter (Collaborators := Sample.collaborators) m p n s id)).
Proof.
  split.
  - intros tx app. done.
  - intros m p n s id app. simpl. unfold Sample.router.
    case_decide; [done|]. case_decide; [apply signData_keeps_chain | done].
Qed.

(** Two blocks, the first storing a key and the second empty, with a
    [CheckTx] and a rejected transaction in between: the height is 2 and the
    hash is the one both [Commit] calls returned. *)
Lemma run_chain_witness :
  let calls := [CallBeginBlock; CallDeliverTx Sample.tx_set_A;
                CallCheckTx Sample.tx_spaced; CallEndBlock; CallCommit;
                CallBeginBlock; CallDeliverTx Sample.tx_onlyonefield;
                CallEndBlock; CallCommit] in
  let r := run (json := Sample.codec) (ext := Sample.collaborators) calls Sample.fresh in
  Height (state r.1) = 2
  ∧ AppHash (state r.1)
    = "16a36e86f6fed5d465ff332511a0ce1a863b55d364b25a7cdaa25db19abf9648".
Proof.
  intros calls r.
  destruct (run_chain (json := Sample.codec) (ext := Sample.collaborators)
              calls Sample.fresh (proj1 Sample_keeps_chain) (proj2 Sample_keeps_chain))
    as (Hheight & Hhash & _).
  - vm_compute. discriminate.
  - vm_compute. discriminate.
  - fold r in Hheight, Hhash. rewrite Hheight, Hhash. clear.
    vm_compute. split; reflexivity.
Defined.

(** When [signData] answers [OK], every check of the handler passed (the
    parameter parses, the request is stored, open and not timed out, and the
    node is entitled by [nodeID_exists]), and the application is changed in
    exactly this way: the answered request is stored under the request key
    and the signed data under the signature key, both keys are appended to
    the tracker in that order, [Size] grows by two, and the response carries
    the request identifier. *)
Theorem signData_ok_effect {json_as : ASCodec} (param nodeID : string)
    (app app' : DIDApplication) (res : ResponseDeliverTx) :
  signData param nodeID app = (app', Done res) ->
  Code res = code.OK ->
  Int64.min <= Size (state app) < Int64.max - 1 ->
  ∃ sd requestJSON request signDataJSON requestJSON',
    let requestKey := "Request" +:+ "|" +:+ SignData_RequestID sd in
    let signDataKey := "SignData" +:+ "|" +:+ SignData_Signature sd in
    Unmarshal_SignDataParam param = inl sd
    ∧ db (state app) !! prefixKey requestKey = Some requestJSON
    ∧ Unmarshal_Request requestJSON = inl request
    ∧ IsClosed request = false
    ∧ IsTimedOut request = false
    ∧ nodeID_exists (SignData_ServiceID sd) nodeID (DataRequestList request) false = true
    ∧ Marshal_Request (answer (SignData_ServiceID sd) nodeID request) = inl requestJSON'
    ∧ Marshal_SignDataParam sd = inl signDataJSON
    ∧ db (state app') !! prefixKey requestKey = Some requestJSON'
    ∧ db (state app') !! prefixKey signDataKey = Some signDataJSON
    ∧ UncommitKeys (state app') = UncommitKeys (state app) ++ [requestKey; signDataKey]
    ∧ Size (state app') = Size (state app) + 2
    ∧ res = ReturnDeliverTxLog code.OK "success" (SignData_RequestID sd).
Proof.
  intros Hcall Hok Hsize.
  destruct (signData_inv param nodeID app)
    as [(c & log & Herr & Hc) |
        (sd & rj & r & sj & rj' & Hsd & Hget & Hreq & Hcl & Hto & Hex & Hmsd & Hmreq & Hrun)].
  { rewrite Herr in Hcall. injection Hcall as <- <-. done. }
  cbv zeta in Hrun. rewrite Hrun in Hcall. injection Hcall as <- <-.
  exists sd, rj, r, sj, rj'. cbv zeta.
  repeat (split; [done|]).
  unfold SetStateDB, modify. cbn [fst state db UncommitKeys Size].
  split; [|split; [|split; [|split; [|done]]]].
  - rewrite lookup_insert_ne; [apply lookup_insert_eq|].
    intros Heq. apply prefixKey_inj in Heq. rewrite !append_cons in Heq. by injection Heq.
  - apply lookup_insert_eq.
  - by rewrite <- app_assoc.
  - rewrite !Int64_incr_in_range; [lia | lia |].
    rewrite Int64_incr_in_range; lia.
Qed.

Lemma signData_ok_effect_witness :
  let r := signData (json_as := Sample.as_codec) "svc,r1,sig" "as1" Sample.with_request in
  UncommitKeys (state r.1) = ["Request|r1"; "Request|r1"; "SignData|sig"]
  ∧ Size (state r.1) = 3
  ∧ db (state r.1) !! prefixKey "Request|r1" = Some "r1;false;false;svc:as1,as2:as1".
Proof.
  intros r.
  destruct (signData_ok_effect (json_as := Sample.as_codec) "svc,r1,sig" "as1"
              Sample.with_request r.1
              (ReturnDeliverTxLog code.OK "success" "r1"))
    as (sd & rj & req & sj & rj' & Hsd & _ & _ & _ & _ & _ & Hm & _ & Hget & _ & Hkeys & Hsize & _).
  - reflexivity.
  - reflexivity.
  - vm_compute. split; congruence.
  - cbv zeta in *. injection Hsd as <-.
    rewrite Hkeys, Hsize. split; [reflexivity | split; [reflexivity|]].
    vm_compute. reflexivity.
Defined.

Lemma nodeID_exists_answer (serviceID nodeID serviceID' nodeID' : string)
    (request : Request) (exist : bool) :
  nodeID_exists serviceID nodeID
    (DataRequestList (answer serviceID' nodeID' request)) exist
  = nodeID_exists serviceID nodeID (DataRequestList request) exist.
Proof.
  unfold answer. cbn [DataRequestList].
  revert exist. induction (DataRequestList request) as [|d l IH]; intros exist; [done|].
  cbn [map nodeID_exists].
  assert (Hsid : ∀ d', d' = (if decide (ServiceID d = serviceID')
                             then {| ServiceID := ServiceID d; As := As d;
                                     AnsweredAsIdList := AnsweredAsIdList d ++ [nodeID'] |}
                             else d) ->
                       ServiceID d' = ServiceID d ∧ As d' = As d).
  { intros d' ->. by case_decide. }
  destruct (Hsid _ eq_refl) as [-> ->].
  by rewrite !IH.
Qed.

(** [signData] does not look at the answered list: once a node has signed,
    the same transaction is answered [OK] again (when the codec reads the
    stored request back), the node is appended to the answered list a second
    time, and the keys are tracked a second time. *)
Theorem signData_replay {json_as : ASCodec} (param nodeID : string)
    (app : DIDApplication) (sd : SignDataParam) (request : Request)
    (requestJSON requestJSON1 requestJSON2 signDataJSON : string) :
  let serviceID := SignData_ServiceID sd in
  let requestKey := "Request" +:+ "|" +:+ SignData_RequestID sd in
  let signDataKey := "SignData" +:+ "|" +:+ SignData_Signature sd in
  let ok := ReturnDeliverTxLog code.OK "success" (SignData_RequestID sd) in
  Unmarshal_SignDataParam param = inl sd ->
  db (state app) !! prefixKey requestKey = Some requestJSON ->
  Unmarshal_Request requestJSON = inl request ->
  IsClosed request = false ->
  IsTimedOut request = false ->
  nodeID_exists serviceID nodeID (DataRequestList request) false = true ->
  Marshal_SignDataParam sd = inl signDataJSON ->
  Marshal_Request (answer serviceID nodeID request) = inl requestJSON1 ->
  Unmarshal_Request requestJSON1 = inl (answer serviceID nodeID request) ->
  Marshal_Request (answer serviceID nodeID (answer serviceID nodeID request))
  = inl requestJSON2 ->
  ∃ app1 app2,
    signData param nodeID app = (app1, Done ok)
    ∧ signData param nodeID app1 = (app2, Done ok)
    ∧ db (state app2) !! prefixKey requestKey = Some requestJSON2
    ∧ UncommitKeys (state app2)
      = UncommitKeys (state app) ++ [requestKey; signDataKey; requestKey; signDataKey].
Proof.
  intros serviceID requestKey signDataKey ok
         Hsd Hget Hreq Hcl Hto Hex Hmsd Hm1 Hround Hm2.
  assert (Hne : prefixKey signDataKey ≠ prefixKey requestKey).
  { intros Heq. apply prefixKey_inj in Heq. subst signDataKey requestKey.
    rewrite !append_cons in Heq. by injection Heq. }
  set (app1 := (SetStateDB signDataKey signDataJSON
                  (SetStateDB requestKey requestJSON1 app).1).1).
  set (app2 := (SetStateDB signDataKey signDataJSON
                  (SetStateDB requestKey requestJSON2 app1).1).1).
  assert (Hget1 : db (state app1) !! prefixKey requestKey = Some requestJSON1).
  { subst app1. unfold SetStateDB, modify. cbn [fst state db].
    rewrite lookup_insert_ne by done. apply lookup_insert_eq. }
  exists app1, app2. split; [|split; [|split]].
  - unfold signData. rewrite Hsd. unfold_M. cbn [fst snd].
    fold requestKey. rewrite Hget, Hreq, Hcl, Hto.
    fold serviceID. rewrite Hex. cbn [negb]. rewrite Hmsd, Hm1. reflexivity.
  - unfold signData. rewrite Hsd. unfold_M. cbn [fst snd].
    fold requestKey. rewrite Hget1, Hround.
    change (IsClosed (answer serviceID nodeID request)) with (IsClosed request).
    change (IsTimedOut (answer serviceID nodeID request)) with (IsTimedOut request).
    rewrite Hcl, Hto. fold serviceID. rewrite nodeID_exists_answer, Hex.
    cbn [negb]. rewrite Hmsd, Hm2. reflexivity.
  - subst app2. unfold SetStateDB, modify. cbn [fst state db].
    rewrite lookup_insert_ne by done. apply lookup_insert_eq.
  - assert (Hrk : requestKey ≠ "stateKey")
      by (subst requestKey; rewrite append_cons; intros [=]).
    assert (Hsk : signDataKey ≠ "stateKey")
      by (subst signDataKey; rewrite append_cons; intros [=]).
    subst app2 app1. rewrite !SetStateDB_tracks by done.
    by rewrite <- !app_assoc.
Qed.

Lemma signData_replay_witness :
  let once := (signData (json_as := Sample.as_codec) "svc,r1,sig" "as1"
                 Sample.with_request).1 in
  let twice := signData (json_as := Sample.as_codec) "svc,r1,sig" "as1" once in
  twice.2 = Done (ReturnDeliverTxLog code.OK "success" "r1")
  ∧ db (state twice.1) !! prefixKey "Request|r1"
    = Some "r1;false;false;svc:as1,as2:as1,as1".
Proof.
  intros once twice.
  destruct (signData_replay (json_as := Sample.as_codec) "svc,r1,sig" "as1"
              Sample.with_request
              {| SignData_ServiceID := "svc"; SignData_RequestID := "r1";
                 SignData_Signature := "sig" |}
              {| RequestID := "r1";
                 DataRequestList := [{| ServiceID := "svc"; As := ["as1"; "as2"];
                                        AnsweredAsIdList := [] |}];
                 IsClosed := false; IsTimedOut := false |}
              "r1;false;false;svc:as1,as2:"
              "r1;false;false;svc:as1,as2:as1"
              "r1;false;false;svc:as1,as2:as1,as1"
              "svc,r1,sig")
    as (app1 & app2 & Hfirst & Hsecond & Hget & _); try reflexivity.
  assert (Honce : once = app1) by (subst once; by rewrite Hfirst).
  subst twice. rewrite Honce, Hsecond. split; [reflexivity | exact Hget].
Defined.

(** ** registerServiceDestination *)

(** When [getNodeNameByNodeID] only reads, [registerServiceDestination]
    always returns; on a response other than [OK] the application is as
    before; on [OK] the service is stored, and the one change is a
    [SetStateDB] of the service destination key with the encoding of the
    nodes registered so far followed by the new node, built from the
    parameter and the node's name.  The submitting node is not looked at. *)
Theorem registerServiceDestination_effect {number Service : Type}
    {deps : ServiceDestinationDeps number Service}
    (param nodeID : string) (app : DIDApplication) :
  (∀ id app, ∃ name, getNodeNameByNodeID id app = (app, Done name)) ->
  ∃ res app',
    registerServiceDestination param nodeID app = (app', Done res)
    ∧ (Code res ≠ code.OK -> app' = app)
    ∧ (Code res = code.OK ->
       ∃ funcParam serviceJSON existing name value,
         let key := "ServiceDestination" +:+ "|" +:+ RSD_ServiceID funcParam in
         Unmarshal_RegisterServiceDestinationParam param = inl funcParam
         ∧ db (state app) !! prefixKey ("Service" +:+ "|" +:+ RSD_ServiceID funcParam)
           = Some serviceJSON
         ∧ stored_destinations app key = Some existing
         ∧ getNodeNameByNodeID (RSD_NodeID funcParam) app = (app, Done name)
         ∧ Marshal_GetAsNodesByServiceIdResult
             (Build_GetAsNodesByServiceIdResult
                (existing ++ [Build_ASNode (RSD_NodeID funcParam) name
                                (RSD_MinIal funcParam) (RSD_MinAal funcParam)
                                (RSD_ServiceID funcParam)]))
           = inl value
         ∧ app' = (SetStateDB key value app).1)
    ∧ (∀ nodeID', registerServiceDestination param nodeID' app
                  = registerServiceDestination param nodeID app).
Proof.
  intros Hread.
  enough (Hmain :
    ∃ res app',
      registerServiceDestination param nodeID app = (app', Done res)
      ∧ (Code res ≠ code.OK -> app' = app)
      ∧ (Code res = code.OK ->
         ∃ funcParam serviceJSON existing name value,
           let key := "ServiceDestination" +:+ "|" +:+ RSD_ServiceID funcParam in
           Unmarshal_RegisterServiceDestinationParam param = inl funcParam
           ∧ db (state app) !! prefixKey ("Service" +:+ "|" +:+ RSD_ServiceID funcParam)
             = Some serviceJSON
           ∧ stored_destinations app key = Some existing
           ∧ getNodeNameByNodeID (RSD_NodeID funcParam) app = (app, Done name)
           ∧ Marshal_GetAsNodesByServiceIdResult
               (Build_GetAsNodesByServiceIdResult
                  (existing ++ [Build_ASNode (RSD_NodeID funcParam) name
                                  (RSD_MinIal funcParam) (RSD_MinAal funcParam)
                                  (RSD_ServiceID funcParam)]))
             = inl value
           ∧ app' = (SetStateDB key value app).1)).
  { destruct Hmain as (res & app' & Hcall & Herr & Hok).
    exists res, app'. split; [exact Hcall | split; [exact Herr | split; [exact Hok|]]].
    reflexivity. }
  unfold registerServiceDestination.
  destruct (Unmarshal_RegisterServiceDestinationParam param) as [fp|err] eqn:Hfp.
  2: { rsd_error. }
  unfold mbind at 1, M_bind at 1, gets at 1.
  destruct (db (state app) !! prefixKey ("Service" +:+ "|" +:+ RSD_ServiceID fp))
    as [serviceJSON|] eqn:Hservice.
  2: { rsd_error. }
  destruct (Unmarshal_Service serviceJSON) as [service|err].
  2: { rsd_error. }
  unfold mbind at 1, M_bind at 1, gets at 1.
  destruct (Hread (RSD_NodeID fp) app) as [name Hname].
  destruct (db (state app) !! prefixKey ("ServiceDestination" +:+ "|" +:+ RSD_ServiceID fp))
    as [chkExists|] eqn:Hchk.
  - destruct (Unmarshal_GetAsNodesByServiceIdResult chkExists) as [nodes|err] eqn:Hnodes.
    2: { rsd_error. }
    unfold mbind at 1, M_bind at 1. rewrite Hname.
    destruct (Marshal_GetAsNodesByServiceIdResult _) as [value|err] eqn:Hvalue.
    2: { rsd_error. }
    eexists _, _. split; [reflexivity|]. simpl. split; [done|].
    intros _. exists fp, serviceJSON, (Node nodes), name, value. cbv zeta.
    unfold stored_destinations. rewrite Hchk, Hnodes. done.
  - unfold mbind at 1, M_bind at 1. rewrite Hname.
    destruct (Marshal_GetAsNodesByServiceIdResult _) as [value|err] eqn:Hvalue.
    2: { rsd_error. }
    eexists _, _. split; [reflexivity|]. simpl. split; [done|].
    intros _. exists fp, serviceJSON, [], name, value. cbv zeta.
    unfold stored_destinations. rewrite Hchk. done.
Qed.

Lemma Sample_node_name_reads (id : string) (app : DIDApplication) :
  ∃ name, getNodeNameByNodeID (ServiceDestinationDeps := Sample.destinations) id app
          = (app, Done name).
Proof. by eexists. Qed.

Lemma registerServiceDestination_effect_witness :
  ∃ res app',
    registerServiceDestination (deps := Sample.destinations) "as1,svc,2.3,3" "any node"
      Sample.with_service = (app', Done res)
    ∧ Code res = code.OK
    ∧ db (state app') !! prefixKey "ServiceDestination|svc"
      = Some "as1:First AS:2.3:3:svc".
Proof.
  destruct (registerServiceDestination_effect (deps := Sample.destinations)
              "as1,svc,2.3,3" "any node" Sample.with_service Sample_node_name_reads)
    as (res & app' & Hcall & _ & _ & _).
  exists res, app'. split; [exact Hcall|].
  injection Hcall as <- <-. split; reflexivity.
Defined.

Lemma service_keys_differ (serviceID serviceID' : string) :
  prefixKey ("ServiceDestination" +:+ "|" +:+ serviceID)
  ≠ prefixKey ("Service" +:+ "|" +:+ serviceID').
Proof.
  intros Heq. apply prefixKey_inj in Heq.
  repeat rewrite ?append_cons, ?append_nil_l in Heq. by injection Heq.
Qed.

(** [registerServiceDestination] does not look for the node in the list it
    extends: registering the same destination a second time is answered
    [OK] again and lists the node twice (when the codec reads the stored
    list back and the node's name is the same on both calls). *)
Theorem registerServiceDestination_twice {number Service : Type}
    {deps : ServiceDestinationDeps number Service}
    (param nodeID : string) (app : DIDApplication)
    (funcParam : RegisterServiceDestinationParam number)
    (serviceJSON : string) (service : Service) (name value1 value2 : string) :
  let key := "ServiceDestination" +:+ "|" +:+ RSD_ServiceID funcParam in
  let node := Build_ASNode (RSD_NodeID funcParam) name (RSD_MinIal funcParam)
                (RSD_MinAal funcParam) (RSD_ServiceID funcParam) in
  let app1 := (SetStateDB key value1 app).1 in
  let app2 := (SetStateDB key value2 app1).1 in
  let ok := ReturnDeliverTxLog code.OK "success" "" in
  Unmarshal_RegisterServiceDestinationParam param = inl funcParam ->
  db (state app) !! prefixKey ("Service" +:+ "|" +:+ RSD_ServiceID funcParam)
  = Some serviceJSON ->
  Unmarshal_Service serviceJSON = inl service ->
  db (state app) !! prefixKey key = None ->
  getNodeNameByNodeID (RSD_NodeID funcParam) app = (app, Done name) ->
  getNodeNameByNodeID (RSD_NodeID funcParam) app1 = (app1, Done name) ->
  Marshal_GetAsNodesByServiceIdResult (Build_GetAsNodesByServiceIdResult [node])
  = inl value1 ->
  Unmarshal_GetAsNodesByServiceIdResult value1
  = inl (Build_GetAsNodesByServiceIdResult [node]) ->
  Marshal_GetAsNodesByServiceIdResult (Build_GetAsNodesByServiceIdResult [node; node])
  = inl value2 ->
  registerServiceDestination param nodeID app = (app1, Done ok)
  ∧ registerServiceDestination param nodeID app1 = (app2, Done ok)
  ∧ db (state app2) !! prefixKey key = Some value2.
Proof.
  intros key node app1 app2 ok Hfp Hservice Hsvc Hnone Hname Hname1 Hm1 Hround Hm2.
  assert (Hservice1 : db (state app1) !! prefixKey ("Service" +:+ "|" +:+ RSD_ServiceID funcParam)
                      = Some serviceJSON).
  { subst app1. unfold SetStateDB, modify. cbn [fst state db].
    rewrite lookup_insert_ne by apply service_keys_differ. exact Hservice. }
  assert (Hget1 : db (state app1) !! prefixKey key = Some value1).
  { subst app1. unfold SetStateDB, modify. cbn [fst state db]. apply lookup_insert_eq. }
  split; [|split].
  - unfold registerServiceDestination. rewrite Hfp.
    unfold mbind at 1, M_bind at 1, gets at 1. rewrite Hservice, Hsvc.
    unfold mbind at 1, M_bind at 1, gets at 1. fold key. rewrite Hnone.
    unfold mbind at 1, M_bind at 1. rewrite Hname.
    cbn [List.app]. fold node. rewrite Hm1. reflexivity.
  - unfold registerServiceDestination. rewrite Hfp.
    unfold mbind at 1, M_bind at 1, gets at 1. rewrite Hservice1, Hsvc.
    unfold mbind at 1, M_bind at 1, gets at 1. fold key. rewrite Hget1, Hround.
    unfold mbind at 1, M_bind at 1. rewrite Hname1.
    cbn [Node List.app]. fold node. rewrite Hm2. reflexivity.
  - subst app2. unfold SetStateDB, modify. cbn [fst state db]. apply lookup_insert_eq.
Qed.

Lemma registerServiceDestination_twice_witness :
  let once := (registerServiceDestination (deps := Sample.destinations)
                 "as1,svc,2.3,3" "n" Sample.with_service).1 in
  let twice := registerServiceDestination (deps := Sample.destinations)
                 "as1,svc,2.3,3" "n" once in
  twice.2 = Done (ReturnDeliverTxLog code.OK "success" "")
  ∧ db (state twice.1) !! prefixKey "ServiceDestination|svc"
    = Some "as1:First AS:2.3:3:svc;as1:First AS:2.3:3:svc".
Proof.
  intros once twice.
  destruct (registerServiceDestination_twice (deps := Sample.destinations)
              "as1,svc,2.3,3" "n" Sample.with_service
              {| RSD_NodeID := "as1"; RSD_ServiceID := "svc";
                 RSD_MinIal := "2.3"; RSD_MinAal := "3" |}
              "bank statement" "bank statement" "First AS"
              "as1:First AS:2.3:3:svc"
              "as1:First AS:2.3:3:svc;as1:First AS:2.3:3:svc")
    as (Hfirst & Hsecond & Hget); try reflexivity.
  assert (Honce : once = (SetStateDB "ServiceDestination|svc" "as1:First AS:2.3:3:svc"
                            Sample.with_service).1)
    by (subst once; by rewrite Hfirst).
  assert (Htwice : twice
                   = ((SetStateDB "ServiceDestination|svc"
                         "as1:First AS:2.3:3:svc;as1:First AS:2.3:3:svc"
                         (SetStateDB "ServiceDestination|svc" "as1:First AS:2.3:3:svc"
                            Sample.with_service).1).1,
                      Done (ReturnDeliverTxLog code.OK "success" "")))
    by (subst twice; rewrite Honce; exact Hsecond).
  rewrite Htwice. split; [reflexivity | exact Hget].
Defined.

(** ** A well-formed envelope reaches the router *)

Lemma lor_shiftl_add (a b n : Z) :
  0 <= n -> 0 <= b < 2 ^ n -> Z.lor (Z.shiftl a n) b = a * 2 ^ n + b.
Proof.
  intros Hn Hb. rewrite Z.shiftl_mul_pow2 by done.
  assert (Hland : Z.land (a * 2 ^ n) b = 0).
  { apply Z.bits_inj'. intros i Hi. rewrite Z.land_spec, Z.bits_0.
    destruct (Z.ltb_spec i n).
    - rewrite Z.mul_pow2_bits_low by done. done.
    - rewrite <- (Z.mod_small b (2 ^ n)) by done.
      rewrite Z.mod_pow2_bits_high by lia. apply andb_false_r. }
  rewrite <- Z.lxor_lor by done. symmetry. by apply Z.add_nocarry_lxor.
Qed.

(** The 24 bits [Base64.assemble] puts together from four six-bit values. *)
Lemma assemble_val (s0 s1 s2 s3 : Z) :
  0 <= s0 < 64 -> 0 <= s1 < 64 -> 0 <= s2 < 64 -> 0 <= s3 < 64 ->
  Z.lor (Z.lor (Z.shiftl s0 18) (Z.shiftl s1 12)) (Z.lor (Z.shiftl s2 6) s3)
  = s0 * 262144 + s1 * 4096 + s2 * 64 + s3.
Proof.
  intros H0 H1 H2 H3.
  rewrite (lor_shiftl_add s2 s3 6) by lia.
  rewrite (Z.shiftl_mul_pow2 s1 12) by lia.
  rewrite (lor_shiftl_add s0 (s1 * 2 ^ 12) 18) by lia.
  replace (s0 * 2 ^ 18 + s1 * 2 ^ 12) with (Z.shiftl (s0 * 64 + s1) 12)
    by (rewrite Z.shiftl_mul_pow2 by lia; lia).
  rewrite (lor_shiftl_add (s0 * 64 + s1) (s2 * 2 ^ 6 + s3) 12) by lia.
  lia.
Qed.

Lemma byte_at (val k : Z) :
  0 <= k -> Z.land (Z.shiftr val k) 255 = val / 2 ^ k mod 256.
Proof.
  intros Hk. rewrite Z.shiftr_div_pow2 by done.
  change 255 with (Z.ones 8). by rewrite Z.land_ones.
Qed.

Lemma byte_of_range (c : ascii) : 0 <= Client.byte_of c < 256.
Proof.
  unfold Client.byte_of. pose proof (N_ascii_bounded c). lia.
Qed.

Lemma ascii_of_byte (c : ascii) (z : Z) :
  z = Client.byte_of c -> ascii_of_N (Z.to_N z) = c.
Proof.
  intros ->. unfold Client.byte_of. by rewrite N2Z.id, ascii_N_embedding.
Qed.

Lemma decodeMap_encode_char (n : Z) :
  0 <= n < 64 -> Base64.decodeMap (Client.encode_char n) = Some n.
Proof.
  intros Hn. rewrite <- (Z2Nat.id n) at 2 by lia.
  assert (Hk : (Z.to_nat n < 64)%nat) by lia.
  unfold Client.encode_char. revert Hk. generalize (Z.to_nat n). intros k Hk.
  do 64 (destruct k as [|k]; [reflexivity|]). lia.
Qed.

Lemma assemble_three (c0 c1 c2 : ascii) :
  let b0 := Client.byte_of c0 in
  let b1 := Client.byte_of c1 in
  let b2 := Client.byte_of c2 in
  Base64.assemble
    [b0 / 4; b0 mod 4 * 16 + b1 / 16; b1 mod 16 * 4 + b2 / 64; b2 mod 64] 4
  = String c0 (String c1 (String c2 EmptyString)).
Proof.
  intros b0 b1 b2.
  pose proof (byte_of_range c0) as H0. pose proof (byte_of_range c1) as H1.
  pose proof (byte_of_range c2) as H2. fold b0 in H0. fold b1 in H1. fold b2 in H2.
  unfold Base64.assemble. cbn [nth length Nat.sub firstn string_of_list_ascii].
  rewrite assemble_val by (Z.div_mod_to_equations; lia).
  rewrite !byte_at by lia.
  f_equal; [|f_equal; [|f_equal]]; apply ascii_of_byte;
    fold b0; fold b1; fold b2; Z.div_mod_to_equations; lia.
Qed.

Lemma assemble_two (c0 c1 : ascii) :
  let b0 := Client.byte_of c0 in
  let b1 := Client.byte_of c1 in
  Base64.assemble [b0 / 4; b0 mod 4 * 16 + b1 / 16; b1 mod 16 * 4] 3
  = String c0 (String c1 EmptyString).
Proof.
  intros b0 b1.
  pose proof (byte_of_range c0) as H0. pose proof (byte_of_range c1) as H1.
  fold b0 in H0. fold b1 in H1.
  unfold Base64.assemble. cbn [nth length Nat.sub firstn string_of_list_ascii].
  rewrite assemble_val by (Z.div_mod_to_equations; lia).
  rewrite !byte_at by lia.
  f_equal; [|f_equal]; apply ascii_of_byte;
    fold b0; fold b1; Z.div_mod_to_equations; lia.
Qed.

Lemma assemble_one (c0 : ascii) :
  let b0 := Client.byte_of c0 in
  Base64.assemble [b0 / 4; b0 mod 4 * 16] 2 = String c0 EmptyString.
Proof.
  intros b0.
  pose proof (byte_of_range c0) as H0. fold b0 in H0.
  unfold Base64.assemble. cbn [nth length Nat.sub firstn string_of_list_ascii].
  rewrite assemble_val by (Z.div_mod_to_equations; lia).
  rewrite !byte_at by lia.
  f_equal; apply ascii_of_byte; fold b0; Z.div_mod_to_equations; lia.
Qed.

Lemma decode_quantum (c0 c1 c2 c3 : ascii) (s0 s1 s2 s3 : Z) (rest : string) (si : nat) :
  Base64.decodeMap c0 = Some s0 -> Base64.decodeMap c1 = Some s1 ->
  Base64.decodeMap c2 = Some s2 -> Base64.decodeMap c3 = Some s3 ->
  Base64.decode (String c0 (String c1 (String c2 (String c3 rest)))) si []
  = match Base64.decode rest (S (S (S (S si)))) [] with
    | inl out => inl (Base64.assemble [s0; s1; s2; s3] 4 +:+ out)
    | inr e => inr e
    end.
Proof.
  intros H0 H1 H2 H3.
  cbn [Base64.decode]. rewrite H0. cbn [List.app length Nat.eqb].
  cbn [Base64.decode]. rewrite H1. cbn [List.app length Nat.eqb].
  cbn [Base64.decode]. rewrite H2. cbn [List.app length Nat.eqb].
  cbn [Base64.decode]. rewrite H3. cbn [List.app length Nat.eqb].
  reflexivity.
Qed.

Lemma decode_padded_two (c0 c1 c2 : ascii) (s0 s1 s2 : Z) (si : nat) :
  Base64.decodeMap c0 = Some s0 -> Base64.decodeMap c1 = Some s1 ->
  Base64.decodeMap c2 = Some s2 ->
  Base64.decode
    (String c0 (String c1 (String c2 (String Base64.padChar EmptyString)))) si []
  = inl (Base64.assemble [s0; s1; s2] 3).
Proof.
  intros H0 H1 H2.
  cbn [Base64.decode]. rewrite H0. cbn [List.app length Nat.eqb].
  cbn [Base64.decode]. rewrite H1. cbn [List.app length Nat.eqb].
  cbn [Base64.decode]. rewrite H2. cbn [List.app length Nat.eqb].
  reflexivity.
Qed.

Lemma decode_padded_one (c0 c1 : ascii) (s0 s1 : Z) (si : nat) :
  Base64.decodeMap c0 = Some s0 -> Base64.decodeMap c1 = Some s1 ->
  Base64.decode
    (String c0 (String c1
       (String Base64.padChar (String Base64.padChar EmptyString)))) si []
  = inl (Base64.assemble [s0; s1] 2).
Proof.
  intros H0 H1.
  cbn [Base64.decode]. rewrite H0. cbn [List.app length Nat.eqb].
  cbn [Base64.decode]. rewrite H1. cbn [List.app length Nat.eqb].
  reflexivity.
Qed.

Lemma decode_encode (src : string) :
  (∀ si, Base64.decode (Client.EncodeToString src) si [] = inl src)
  ∧ (∀ c si, Base64.decode (Client.EncodeToString (String c src)) si []
             = inl (String c src))
  ∧ (∀ c c' si, Base64.decode (Client.EncodeToString (String c (String c' src))) si []
                = inl (String c (String c' src))).
Proof.
  assert (Hrange : ∀ c, 0 <= Client.byte_of c < 256) by apply byte_of_range.
  induction src as [|a src (IH0 & IH1 & IH2)].
  - split; [done | split].
    + intros c si. cbn [Client.EncodeToString].
      pose proof (Hrange c).
      rewrite (decode_padded_one _ _ (Client.byte_of c / 4) (Client.byte_of c mod 4 * 16))
        by (apply decodeMap_encode_char; Z.div_mod_to_equations; lia).
      by rewrite assemble_one.
    + intros c c' si. cbn [Client.EncodeToString].
      pose proof (Hrange c). pose proof (Hrange c').
      rewrite (decode_padded_two _ _ _ (Client.byte_of c / 4)
                 (Client.byte_of c mod 4 * 16 + Client.byte_of c' / 16)
                 (Client.byte_of c' mod 16 * 4))
        by (apply decodeMap_encode_char; Z.div_mod_to_equations; lia).
      by rewrite assemble_two.
  - split; [apply IH1 | split; [intros c si; apply IH2|]].
    intros c c' si.
    change (Client.EncodeToString (String c (String c' (String a src))))
      with (String (Client.encode_char (Client.byte_of c / 4))
              (String (Client.encode_char
                         (Client.byte_of c mod 4 * 16 + Client.byte_of c' / 16))
                 (String (Client.encode_char
                            (Client.byte_of c' mod 16 * 4 + Client.byte_of a / 64))
                    (String (Client.encode_char (Client.byte_of a mod 64))
                       (Client.EncodeToString src))))).
    pose proof (Hrange c). pose proof (Hrange c'). pose proof (Hrange a).
    rewrite (decode_quantum _ _ _ _ (Client.byte_of c / 4)
               (Client.byte_of c mod 4 * 16 + Client.byte_of c' / 16)
               (Client.byte_of c' mod 16 * 4 + Client.byte_of a / 64)
               (Client.byte_of a mod 64))
      by (apply decodeMap_encode_char; Z.div_mod_to_equations; lia).
    rewrite IH0, assemble_three. reflexivity.
Qed.

(** The decoder inverts the encoder, on every byte string. *)
Lemma DecodeString_EncodeToString (src : string) :
  Base64.DecodeString (Client.EncodeToString src) = inl src.
Proof. apply (decode_encode src). Qed.

Lemma EncodeToString_no_space (src : string) :
  Strings.contains (Client.EncodeToString src) " " = false.
Proof.
  destruct (Strings.contains (Client.EncodeToString src) " ") eqn:Hsp; [|done].
  destruct (decode_space _ 0 [] Hsp) as [e He].
  pose proof (DecodeString_EncodeToString src) as Hok.
  unfold Base64.DecodeString in Hok. congruence.
Qed.

Lemma Split_no_sep (s : string) (sep : ascii) :
  Strings.contains s sep = false -> Strings.Split s sep = [s].
Proof.
  induction s as [|c s IH]; simpl; [done|].
  destruct (Ascii.eqb c sep); simpl; [done|]. intros Hs. by rewrite IH.
Qed.

Lemma Split_append (s rest : string) (sep : ascii) :
  Strings.contains s sep = false ->
  Strings.Split (s +:+ String sep rest) sep = s :: Strings.Split rest sep.
Proof.
  induction s as [|c s IH]; intros Hs.
  - rewrite append_nil_l. simpl. by rewrite Ascii.eqb_refl.
  - rewrite append_cons. simpl in *.
    destruct (Ascii.eqb c sep); simpl in *; [done|]. by rewrite IH.
Qed.

Lemma Split_delimited (method param nonce signature nodeID : string) :
  Strings.contains method "|" = false ->
  Strings.contains param "|" = false ->
  Strings.contains nonce "|" = false ->
  Strings.contains signature "|" = false ->
  Strings.contains nodeID "|" = false ->
  Strings.Split (Client.delimited method param nonce signature nodeID) "|"
  = [method; param; nonce; signature; nodeID].
Proof.
  intros Hm Hp Hn Hs Hid. unfold Client.delimited. cbn [String.concat].
  change ("|" +:+ ?x) with (String "|" x).
  rewrite !append_cons, !append_nil_l.
  rewrite !Split_append by done. by rewrite Split_no_sep.
Qed.

(** A well-formed transaction, the base64 text of five fields joined by
    ['|'] with no ['|'] inside a field, is never rejected by the envelope
    decoding: [DeliverTx] hands exactly those five fields to the router (or
    answers method-can-not-be-empty when the method is empty), and [CheckTx]
    accepts it exactly when the five fields are non-empty. *)
Theorem well_formed_envelope {ext : Collaborators}
    (method param nonce signature nodeID : string) (app : DIDApplication) :
  let tx := Client.transaction method param nonce signature nodeID in
  isValidatorTx tx = false ->
  Strings.contains method "|" = false ->
  Strings.contains param "|" = false ->
  Strings.contains nonce "|" = false ->
  Strings.contains signature "|" = false ->
  Strings.contains nodeID "|" = false ->
  DeliverTx tx app
  = (if decide (method ≠ "") then
       recover (DeliverTxRouter method param nonce signature nodeID)
         (ReturnDeliverTxLog code.WrongTransactionFormat "wrong transaction format" "")
         app
     else (app, ReturnDeliverTxLog code.MethodCanNotBeEmpty "method can not be empty" ""))
  ∧ CheckTx tx app
    = (app, ReturnCheckTx (bool_decide (method ≠ "" ∧ param ≠ "" ∧ nonce ≠ ""
                                        ∧ signature ≠ "" ∧ nodeID ≠ ""))).
Proof.
  intros tx Hval Hm Hp Hn Hs Hid.
  pose proof (Split_delimited method param nonce signature nodeID Hm Hp Hn Hs Hid)
    as Hsplit.
  pose proof (DecodeString_EncodeToString
                (Client.delimited method param nonce signature nodeID)) as Hdec.
  split.
  - by apply (DeliverTx_fields tx
                (Client.delimited method param nonce signature nodeID)
                method param nonce signature nodeID []).
  - unfold CheckTx. rewrite Hval.
    rewrite Replace_absent by apply EncodeToString_no_space.
    unfold tx, Client.transaction. rewrite Hdec, Hsplit.
    unfold recover. rewrite index_five.
    case_decide as Hne.
    + by rewrite bool_decide_eq_true_2.
    + by rewrite bool_decide_eq_false_2.
Qed.

Lemma well_formed_envelope_witness :
  Client.transaction "Set" "A" "1" "sig" "node1" = Sample.tx_set_A
  ∧ DeliverTx (ext := Sample.collaborators)
      (Client.transaction "Set" "A" "1" "sig" "node1") Sample.fresh
    = (Sample.stored_A, ReturnDeliverTxLog code.OK "success" "")
  ∧ CheckTx (ext := Sample.collaborators)
      (Client.transaction "Set" "A" "1" "sig" "node1") Sample.fresh
    = (Sample.fresh, ReturnCheckTx true).
Proof.
  destruct (well_formed_envelope (ext := Sample.collaborators)
              "Set" "A" "1" "sig" "node1" Sample.fresh)
    as [Hdeliver Hcheck]; try reflexivity.
  split; [reflexivity|]. rewrite Hdeliver, Hcheck. split; reflexivity.
Defined.

(** ** The migration tool *)

Lemma Contains_empty (s : string) : Migrate.Contains s "" = true.
Proof. by destruct s. Qed.

Lemma Iterate_lines (Marshal_KeyValue : string -> string -> option string)
    (ndidNodeID : string) (entries : list (string * string)) (files : Migrate.Files) :
  (∀ key value, (key, value) ∈ entries -> is_Some (Marshal_KeyValue key value)) ->
  Migrate.Iterate Marshal_KeyValue ndidNodeID entries files
  = ({| Migrate.data_txt :=
          Migrate.data_txt files
          +:+ Migrate.lines Marshal_KeyValue (Migrate.is_data ndidNodeID) entries;
        Migrate.validators_txt :=
          Migrate.validators_txt files
          +:+ Migrate.lines Marshal_KeyValue Migrate.is_validator entries |},
     Done tt).
Proof.
  revert files. induction entries as [|[key value] entries IH]; intros files Hm.
  - simpl. rewrite !append_nil_r. by destruct files.
  - destruct (Hm key value) as [jsonStr Hjson]; [apply list_elem_of_here|].
    assert (Hm' : ∀ k v, (k, v) ∈ entries -> is_Some (Marshal_KeyValue k v)).
    { intros k v Hin. by apply Hm, list_elem_of_further. }
    cbn [Migrate.Iterate Migrate.lines].
    unfold Migrate.visit, Migrate.is_data, Migrate.is_validator.
    rewrite Hjson. cbn [default].
    destruct (Migrate.Contains key "val:"); cbn [negb andb].
    { rewrite IH by done. cbn [Migrate.data_txt Migrate.validators_txt].
      unfold Migrate.fWriteLn. by rewrite !append_assoc. }
    destruct (Migrate.Contains key ndidNodeID); cbn [negb andb].
    { by rewrite IH. }
    destruct (Migrate.Contains key "MasterNDID"); cbn [negb andb].
    { by rewrite IH. }
    destruct (Migrate.Contains key "InitState"); cbn [negb andb].
    { by rewrite IH. }
    rewrite IH by done. cbn [Migrate.data_txt Migrate.validators_txt].
    unfold Migrate.fWriteLn. by rewrite !append_assoc.
Qed.

(** What the walk exports, when every entry can be encoded: the validators
    file holds, in tree order, one line for each entry whose key contains
    ["val:"] anywhere; the data file holds one line for each other entry
    whose key contains neither the value stored under the master key, nor
    ["MasterNDID"], nor ["InitState"]; no entry goes to both files. *)
Theorem backup_exports (Marshal_KeyValue : string -> string -> option string)
    (tree : list (string * string)) :
  (∀ key value, (key, value) ∈ tree -> is_Some (Marshal_KeyValue key value)) ->
  let ndidNodeID := default "" (Migrate.Get tree (prefixKey "MasterNDID")) in
  Migrate.backup Marshal_KeyValue tree
  = ({| Migrate.data_txt :=
          Migrate.lines Marshal_KeyValue (Migrate.is_data ndidNodeID) tree;
        Migrate.validators_txt :=
          Migrate.lines Marshal_KeyValue Migrate.is_validator tree |},
     Done tt)
  ∧ (∀ key, Migrate.is_validator key = true -> Migrate.is_data ndidNodeID key = false).
Proof.
  intros Hm ndidNodeID. split.
  - unfold Migrate.backup. fold ndidNodeID. by rewrite Iterate_lines.
  - intros key. unfold Migrate.is_validator, Migrate.is_data. by intros ->.
Qed.

(** On a tree with a master entry: the entries of the master node and the
    master entry itself are left out, and a data key that merely contains
    ["val:"] lands in the validators file. *)
Lemma backup_exports_witness :
  Migrate.backup Migrate.sample_marshal Migrate.sample_tree
  = ({| Migrate.data_txt :=
          "kvPairKey:NodeID|idp1=node detail" +:+ Migrate.crlf
          +:+ "stateKey=state record" +:+ Migrate.crlf;
        Migrate.validators_txt :=
          "kvPairKey:interval:5=a data key with val: inside" +:+ Migrate.crlf
          +:+ "val:abc=10" +:+ Migrate.crlf |},
     Done tt).
Proof.
  destruct (backup_exports Migrate.sample_marshal Migrate.sample_tree) as [Hbackup _].
  - intros key value _. by eexists.
  - rewrite Hbackup. vm_compute. reflexivity.
Defined.

Lemma Iterate_no_master (Marshal_KeyValue : string -> string -> option string)
    (entries : list (string * string)) (files : Migrate.Files) :
  Migrate.data_txt (Migrate.Iterate Marshal_KeyValue "" entries files).1
  = Migrate.data_txt files.
Proof.
  revert files. induction entries as [|[key value] entries IH]; intros files; [done|].
  cbn [Migrate.Iterate]. unfold Migrate.visit. rewrite Contains_empty.
  destruct (Migrate.Contains key "val:").
  - destruct (Marshal_KeyValue key value); [|done]. by rewrite IH.
  - by rewrite IH.
Qed.

(** When the tree holds no master entry (or an empty one), the node
    identifier read from it is empty, and the empty string occurs in every
    key: the walk then exports no data entry at all, and the data file stays
    empty whatever the tree holds. *)
Theorem backup_without_master (Marshal_KeyValue : string -> string -> option string)
    (tree : list (string * string)) :
  Migrate.Get tree (prefixKey "MasterNDID") = None
  ∨ Migrate.Get tree (prefixKey "MasterNDID") = Some "" ->
  Migrate.data_txt (Migrate.backup Marshal_KeyValue tree).1 = "".
Proof.
  intros Hmaster. unfold Migrate.backup.
  assert (Hid : default "" (Migrate.Get tree (prefixKey "MasterNDID")) = "")
    by (destruct Hmaster as [-> | ->]; done).
  rewrite Hid. apply Iterate_no_master.
Qed.

Lemma backup_without_master_witness :
  Migrate.data_txt
    (Migrate.backup Migrate.sample_marshal Migrate.sample_tree_without_master).1 = ""
  ∧ Migrate.validators_txt
      (Migrate.backup Migrate.sample_marshal Migrate.sample_tree_without_master).1
    = "val:abc=10" +:+ Migrate.crlf.
Proof.
  split.
  - apply (backup_without_master Migrate.sample_marshal Migrate.sample_tree_without_master).
    left. reflexivity.
  - vm_compute. reflexivity.
Defined.

(** ** Query *)

(** [Query] reads two fields where [DeliverTx] reads five.  A decoded text
    without a delimiter has one field only, so the read of the parameter
    panics and the query is answered "wrong query format", even for an
    existing method that takes no parameter; with a delimiter, the first two
    fields go to the router (or the method is empty) and any further field
    is ignored. *)
Theorem Query_field_count {ResponseQuery : Type} {query : QueryDeps ResponseQuery}
    (reqQuery : RequestQuery) (txString : string) (app : DIDApplication) :
  Base64.DecodeString (Query_Data reqQuery) = inl txString ->
  (Strings.contains txString "|" = false ->
   Query reqQuery app
   = (app, ReturnQuery None "wrong query format" (Height (state app)) app))
  ∧ (∀ method param rest,
       Strings.Split txString "|" = method :: param :: rest ->
       Query reqQuery app
       = if decide (method ≠ "") then
           recover_with (QueryRouter method param (Query_Height reqQuery))
             (fun app' => ReturnQuery None "wrong query format" (Height (state app')) app')
             app
         else (app, ReturnQuery None "method can't empty" (Height (state app)) app)).
Proof.
  intros Hdec. unfold Query. rewrite Hdec. split.
  - intros Hsep. rewrite Split_no_sep by done. reflexivity.
  - intros method param rest Hsplit. rewrite Hsplit.
    unfold recover_with. unfold_M. cbn [lookup list_lookup].
    unfold mret, M_ret. cbn beta iota.
    case_decide; done.
Qed.

Lemma Query_field_count_witness :
  Query (query := Sample.query_deps)
    {| Query_Data := Client.EncodeToString "Get"; Query_Height := 0 |} Sample.stored_A
  = (Sample.stored_A, (None, "wrong query format", 0))
  ∧ Query (query := Sample.query_deps)
      {| Query_Data := Client.EncodeToString "Get|A|ignored"; Query_Height := 0 |}
      Sample.stored_A
    = (Sample.stored_A, (Some "1", "success", 0)).
Proof.
  split.
  - apply (Query_field_count (query := Sample.query_deps)
             {| Query_Data := Client.EncodeToString "Get"; Query_Height := 0 |}
             "Get" Sample.stored_A); reflexivity.
  - vm_compute. reflexivity.
Defined.

(** ** Line breaks in the transaction text *)

Lemma skip_newlines_head (src : string) (si : nat) :
  match (Base64.skip_newlines src si).1 with
  | EmptyString => without_newlines src = EmptyString
  | String d t =>
      Base64.is_newline d = false
      ∧ without_newlines src = String d (without_newlines t)
  end.
Proof.
  revert si. induction src as [|c src IH]; intros si; simpl; [done|].
  destruct (Base64.is_newline c) eqn:Hc.
  - apply IH.
  - simpl. by rewrite Hc.
Qed.

Lemma newline_not_in_alphabet (c : ascii) :
  Base64.is_newline c = true ->
  Base64.decodeMap c = None ∧ Ascii.eqb c Base64.padChar = false.
Proof.
  unfold Base64.is_newline. intros Hc. apply orb_true_iff in Hc.
  destruct Hc as [Hc | Hc]; apply Ascii.eqb_eq in Hc; by subst.
Qed.

Lemma finish_without_newlines (dbuf : list Z) (n : nat) (tail tail' : string)
    (sj sj' : nat) :
  without_newlines tail = without_newlines tail' ->
  same_result
    match Base64.skip_newlines tail sj with
    | (EmptyString, _) => inl (Base64.assemble dbuf n)
    | (String _ _, sk) => inr (Base64.CorruptInputError sk)
    end
    match Base64.skip_newlines tail' sj' with
    | (EmptyString, _) => inl (Base64.assemble dbuf n)
    | (String _ _, sk) => inr (Base64.CorruptInputError sk)
    end.
Proof.
  intros Heq.
  pose proof (skip_newlines_head tail sj) as H1.
  pose proof (skip_newlines_head tail' sj') as H2.
  destruct (Base64.skip_newlines tail sj) as [[|d t] sk];
    destruct (Base64.skip_newlines tail' sj') as [[|d' t'] sk']; simpl in *.
  - done.
  - destruct H2 as [_ H2]. congruence.
  - destruct H1 as [_ H1]. congruence.
  - done.
Qed.

Lemma padding_without_newlines (dbuf : list Z) (rest rest' : string) (si si' : nat) :
  without_newlines rest = without_newlines rest' ->
  same_result (Base64.padding dbuf rest si) (Base64.padding dbuf rest' si').
Proof.
  intros Heq. unfold Base64.padding.
  destruct (length dbuf) as [|[|[|j]]]; try done.
  - pose proof (skip_newlines_head rest (S si)) as H1.
    pose proof (skip_newlines_head rest' (S si')) as H2.
    destruct (Base64.skip_newlines rest (S si)) as [[|d t] sk];
      destruct (Base64.skip_newlines rest' (S si')) as [[|d' t'] sk']; simpl in *.
    + done.
    + destruct H2 as [_ H2]. congruence.
    + destruct H1 as [_ H1]. congruence.
    + destruct H1 as [_ H1]. destruct H2 as [_ H2].
      rewrite H1, H2 in Heq. injection Heq as <- Ht.
      destruct (Ascii.eqb d Base64.padChar); [|done].
      by apply finish_without_newlines.
  - by apply finish_without_newlines.
Qed.

Lemma decode_without_newlines (src : string) :
  ∀ src' si si' dbuf,
    without_newlines src = without_newlines src' ->
    same_result (Base64.decode src si dbuf) (Base64.decode src' si' dbuf).
Proof.
  (* first: a text made of line breaks only is decoded as the empty text *)
  assert (Hblank : ∀ src' si' dbuf,
            without_newlines src' = EmptyString ->
            Base64.decode src' si' dbuf = Base64.decode EmptyString 0 dbuf
            ∨ (dbuf ≠ [] ∧ ∃ e, Base64.decode src' si' dbuf = inr e)).
  { induction src' as [|c src' IH]; intros si' dbuf Hs.
    - destruct dbuf; [by left | right]. split; [done | by eexists].
    - simpl in Hs. destruct (Base64.is_newline c) eqn:Hc; [|done].
      destruct (newline_not_in_alphabet c Hc) as [Hmap _].
      cbn [Base64.decode]. rewrite Hmap, Hc. by apply IH. }
  induction src as [|c src IH]; intros src' si si' dbuf Heq.
  - simpl in Heq. symmetry in Heq.
    destruct (Hblank src' si' dbuf Heq) as [-> | (Hne & e & ->)].
    + simpl. by destruct dbuf.
    + simpl. by destruct dbuf.
  - simpl in Heq. destruct (Base64.is_newline c) eqn:Hc.
    { destruct (newline_not_in_alphabet c Hc) as [Hmap _].
      cbn [Base64.decode]. rewrite Hmap, Hc. by apply IH. }
    revert si'. induction src' as [|c' src' IH']; intros si'; [done|].
    simpl in Heq. destruct (Base64.is_newline c') eqn:Hc'.
    { destruct (newline_not_in_alphabet c' Hc') as [Hmap' _].
      cbn [Base64.decode] in *. rewrite Hmap', Hc'. by apply IH'. }
    injection Heq as <- Hrest. clear IH'.
    cbn [Base64.decode]. rewrite Hc.
    destruct (Base64.decodeMap c) as [v|].
    + destruct (length (dbuf ++ [v]) =? 4)%nat.
      * pose proof (IH src' (S si) (S si') [] Hrest) as Hrec.
        destruct (Base64.decode src (S si) []), (Base64.decode src' (S si') []);
          simpl in *; congruence.
      * by apply IH.
    + destruct (Ascii.eqb c Base64.padChar); [|done].
      by apply padding_without_newlines.
Qed.

(** Line breaks do not count: two transaction texts that differ only in CR
    and LF characters decode to the same string, so [DeliverTx] treats them
    alike (when neither is taken for a validator transaction and the text
    decodes). *)
Theorem DeliverTx_ignores_line_breaks {ext : Collaborators}
    (tx tx' txString : string) (app : DIDApplication) :
  isValidatorTx tx = false ->
  isValidatorTx tx' = false ->
  without_newlines tx = without_newlines tx' ->
  Base64.DecodeString tx = inl txString ->
  Base64.DecodeString tx' = inl txString
  ∧ DeliverTx tx' app = DeliverTx tx app.
Proof.
  intros Hval Hval' Heq Hdec.
  assert (Hdec' : Base64.DecodeString tx' = inl txString).
  { pose proof (decode_without_newlines tx tx' 0%nat 0%nat [] Heq) as Hsame.
    unfold Base64.DecodeString in *. rewrite Hdec in Hsame.
    destruct (Base64.decode tx' 0 []); simpl in Hsame; [by subst | done]. }
  split; [exact Hdec'|].
  unfold DeliverTx. by rewrite Hval, Hval', Hdec, Hdec'.
Qed.

Lemma DeliverTx_ignores_line_breaks_witness :
  Base64.DecodeString ("U2V0fEF8" +:+ Migrate.crlf +:+ "MXxzaWd8bm9kZTE=")
  = inl "Set|A|1|sig|node1"
  ∧ DeliverTx (ext := Sample.collaborators)
      ("U2V0fEF8" +:+ Migrate.crlf +:+ "MXxzaWd8bm9kZTE=") Sample.fresh
    = DeliverTx (ext := Sample.collaborators) Sample.tx_set_A Sample.fresh.
Proof.
  apply (DeliverTx_ignores_line_breaks (ext := Sample.collaborators)
           Sample.tx_set_A ("U2V0fEF8" +:+ Migrate.crlf +:+ "MXxzaWd8bm9kZTE=")
           "Set|A|1|sig|node1" Sample.fresh); reflexivity.
Defined.
